(** * Face-Recognition: a shallow embedding of [python-face-recognition.py]

    The script is glue around three external libraries (image decoding
    and face encoding, a k-nearest-neighbour classifier, pickle).  The
    libraries are an environment record [Env]; the engine object, the
    model files, [stdout] and [stderr] are explicit state; Python
    exceptions are the left summand of a result. *)

From Stdlib Require Import String Ascii List ZArith Bool Arith Lia.
From Stdlib Require Import Floats.SpecFloat.
From stdpp Require Import gmap strings.
Import ListNotations.

Local Open Scope string_scope.
Local Open Scope list_scope.

(** ** Strings: [str.lower], [str.endswith], [os.path.join]

    Strings are byte strings; [lower] maps the ASCII capitals, which is
    what decides the three suffixes tested below. *)

Definition ascii_lower (c : ascii) : ascii :=
  let n := nat_of_ascii c in
  if (65 <=? n)%nat && (n <=? 90)%nat then ascii_of_nat (n + 32) else c.

Fixpoint lower (s : string) : string :=
  match s with
  | EmptyString => EmptyString
  | String c s' => String (ascii_lower c) (lower s')
  end.

Definition endswith (s suffix : string) : bool :=
  let n := String.length s in
  let m := String.length suffix in
  (m <=? n)%nat && String.eqb (substring (n - m) m s) suffix.

Definition startswith (s pre : string) : bool := String.prefix pre s.

(** [os.path.join(a, b)] (posixpath, two components). *)
Definition join (a b : string) : string :=
  if startswith b "/" then b
  else if String.eqb a "" || endswith a "/" then a ++ b
  else a ++ "/" ++ b.

(** [path.lower().endswith(('.png', '.jpg', '.jpeg'))] *)
Definition is_image (path : string) : bool :=
  let p := lower path in
  endswith p ".png" || endswith p ".jpg" || endswith p ".jpeg".

(** [if args.x:] on an optional string: [None] and [""] are falsy. *)
Definition given (o : option string) : option string :=
  match o with
  | Some s => if String.eqb s "" then None else Some s
  | None => None
  end.

(** ** Floats

    Python floats and [numpy.float64] are IEEE 754 binary64 values; they
    are [spec_float]s in canonical form, compared with [SFleb] ([<=]),
    [SFltb] ([<]) and [SFeqb] ([==]). *)

Definition float := spec_float.

(** The literal [0.6]: 5404319552844595 * 2^-53. *)
Definition default_tolerance : float := S754_finite false 5404319552844595 (-53).

(** ** Exceptions *)

Inductive exn := Exception (message : string).

Definition str (e : exn) : string := let 'Exception m := e in m.

(** ** Python values held in [self.model] and in model files *)

Record KNeighborsClassifier (embedding : Type) := mkKNN {
  n_neighbors : nat;
  fit_X : list embedding;
  fit_y : list string
}.
Arguments mkKNN {embedding}.
Arguments n_neighbors {embedding}.
Arguments fit_X {embedding}.
Arguments fit_y {embedding}.

(** [KNeighborsClassifier(n_neighbors=k)], not yet fitted. *)
Definition new_classifier {embedding} (k : nat) : KNeighborsClassifier embedding :=
  mkKNN k [] [].

(** [clf.fit(X, y)] stores the samples and their labels; fitting is
    taken to succeed. *)
Definition fit {embedding} (c : KNeighborsClassifier embedding)
    (X : list embedding) (y : list string) : KNeighborsClassifier embedding :=
  mkKNN (n_neighbors c) X y.

(** [clf.classes_]: the label set of a fitted classifier. *)
Definition classes_ {embedding} (c : KNeighborsClassifier embedding) : gset string :=
  list_to_set (fit_y c).

(** What [pickle.load] can produce and what [self.model] can hold:
    [None], a classifier, or some other object, of which only the
    outcome of its truth test matters (it has no [kneighbors]). *)
Inductive pyval (embedding : Type) :=
  | PyNone
  | PyKNN (c : KNeighborsClassifier embedding)
  | PyOther (truth : exn + bool).
Arguments PyNone {embedding}.
Arguments PyKNN {embedding}.
Arguments PyOther {embedding}.

(** [bool(v)], as evaluated by [not self.model]. *)
Definition truth_value {embedding} (v : pyval embedding) : exn + bool :=
  match v with
  | PyNone => inr false
  | PyKNN _ => inr true
  | PyOther t => t
  end.

(** ** The external libraries and the image tree on disk *)

Record Env := mkEnv {
  image : Type;
  box : Type;
  embedding : Type;
  (** [os.listdir], [os.path.isdir] *)
  listdir : string -> exn + list string;
  isdir : string -> bool;
  (** [open(path, 'wb')]: whether the path can be opened for writing *)
  open_wb : string -> exn + unit;
  (** whether [sys.stdout] can encode a text *)
  stdout_encodes : string -> bool;
  (** [face_recognition] *)
  load_image_file : string -> exn + image;
  face_locations : image -> exn + list box;
  face_encodings : image -> option (list box) -> exn + list embedding;
  (** [sklearn]: distance to the single nearest neighbour
      ([kneighbors([x], n_neighbors=1)[0][0][0]]) and [predict([x])[0]] *)
  kneighbors : KNeighborsClassifier embedding -> embedding -> exn + float;
  predict : KNeighborsClassifier embedding -> embedding -> exn + string
}.

(** ** Mutable state: model files, file-system accesses, output streams *)

Inductive file_content (embedding : Type) :=
  | Pickled (v : pyval embedding)
  | Corrupt (e : exn).
Arguments Pickled {embedding}.
Arguments Corrupt {embedding}.

Inductive fs_event :=
  | Exists (path : string)
  | OpenRead (path : string)
  | OpenWrite (path : string).

(** [json.dumps] and dictionaries: an ordered mapping from file name to
    either a list of labels or [{"error": message}]. *)
Inductive entry :=
  | Labels (people : list string)
  | ErrorEntry (message : string).

Definition dict := list (string * entry).

(** [d[k] = v]: an existing key keeps its position, a new key goes last. *)
Fixpoint dict_set (k : string) (v : entry) (d : dict) : dict :=
  match d with
  | [] => [(k, v)]
  | (k', v') :: d' =>
      if String.eqb k k' then (k, v) :: d' else (k', v') :: dict_set k v d'
  end.

Fixpoint dict_get (k : string) (d : dict) : option entry :=
  match d with
  | [] => None
  | (k', v') :: d' => if String.eqb k k' then Some v' else dict_get k d'
  end.

Definition keys (d : dict) : list string := map fst d.

(** [process_directory] returns [json.dumps(results)] or [results]. *)
Inductive batch_result :=
  | JsonText (results : dict)
  | Native (results : dict).

Inductive message :=
  | ErrorLoadingModel (e : exn)
  | ProcessedFace (image_path person_name : string)
  | WarningNoFace (image_path : string)
  | ErrorProcessing (path : string) (e : exn)
  | TrainingFailed
  | NoTrainedModel
  | ErrorRecognizing (image_path : string) (e : exn)
  | TrainingComplete (count : nat)
  | PrintPeople (people : list string)
  | PrintBatch (results : batch_result)
  | PrintHelp.

Record World (embedding : Type) := mkWorld {
  files : gmap string (file_content embedding);
  fs_log : list fs_event;
  stdout : list message;
  stderr : list message
}.
Arguments mkWorld {embedding}.
Arguments files {embedding}.
Arguments fs_log {embedding}.
Arguments stdout {embedding}.
Arguments stderr {embedding}.

Record Engine (embedding : Type) := mkEngine {
  model_path : string;
  model : pyval embedding
}.
Arguments mkEngine {embedding}.
Arguments model_path {embedding}.
Arguments model {embedding}.

(** [sys.argv] after [argparse]. *)
Record Args := mkArgs {
  arg_train : option string;
  arg_recognize : option string;
  arg_process_dir : option string;
  arg_model : string;
  arg_tolerance : float
}.

(** ** The state-and-exception monad *)

Section Monad.
Context {W : Type}.

Definition M (A : Type) : Type := W -> (exn + A) * W.

Definition ret {A} (a : A) : M A := fun w => (inr a, w).

Definition bind {A B} (m : M A) (k : A -> M B) : M B :=
  fun w =>
    match m w with
    | (inr a, w') => k a w'
    | (inl e, w') => (inl e, w')
    end.

(** An external call: its exception, if any, is raised. *)
Definition call {A} (r : exn + A) : M A := fun w => (r, w).

(** [try: m except Exception as e: h e]; what [m] did to the state
    before raising stays done. *)
Definition try_except {A} (m : M A) (h : exn -> M A) : M A :=
  fun w =>
    match m w with
    | (inr a, w') => (inr a, w')
    | (inl e, w') => h e w'
    end.

(** [for x in xs: s = body x s] *)
Fixpoint for_each {A S} (xs : list A) (body : A -> S -> M S) (s : S) : M S :=
  match xs with
  | [] => ret s
  | x :: xs' => bind (body x s) (for_each xs' body)
  end.
End Monad.

Notation "'let*' x ':=' m 'in' k" := (bind m (fun x => k))
  (at level 10, x name, m at level 100, k at level 200).
Notation "'let*' ' p ':=' m 'in' k" := (bind m (fun x => let 'p := x in k))
  (at level 10, p pattern, m at level 100, k at level 200).

(** ** The program *)

Section Program.
Variable E : Env.

Local Abbreviation emb := (embedding E).
Local Abbreviation IO := (@M (World emb)).

Definition print (m : message) : IO unit :=
  fun w => (inr tt, mkWorld (files w) (fs_log w) (stdout w ++ [m]) (stderr w)).

Definition print_err (m : message) : IO unit :=
  fun w => (inr tt, mkWorld (files w) (fs_log w) (stdout w) (stderr w ++ [m])).

Definition log_fs (ev : fs_event) (w : World emb) : World emb :=
  mkWorld (files w) (fs_log w ++ [ev]) (stdout w) (stderr w).

(** [os.path.exists(path)] *)
Definition path_exists (path : string) : IO bool :=
  fun w => (inr (bool_decide (is_Some (files w !! path))), log_fs (Exists path) w).

(** [with open(path, 'rb') as f: pickle.load(f)] *)
Definition pickle_load (path : string) : IO (pyval emb) :=
  fun w =>
    match files w !! path with
    | Some (Pickled v) => (inr v, log_fs (OpenRead path) w)
    | Some (Corrupt e) => (inl e, log_fs (OpenRead path) w)
    | None => (inl (Exception "FileNotFoundError"), log_fs (OpenRead path) w)
    end.

(** [with open(path, 'wb') as f: pickle.dump(v, f)]: when the path
    cannot be opened the exception is raised and no file changes. *)
Definition pickle_dump (v : pyval emb) (path : string) : IO unit :=
  fun w =>
    match open_wb E path with
    | inr _ =>
        (inr tt, mkWorld (<[path := Pickled v]> (files w))
                         (fs_log w ++ [OpenWrite path]) (stdout w) (stderr w))
    | inl e => (inl e, log_fs (OpenWrite path) w)
    end.

Definition set_model (self : Engine emb) (v : pyval emb) : Engine emb :=
  mkEngine (model_path self) v.

(** Methods return the updated [self] next to their value. *)
Definition load_model (self : Engine emb) : IO (bool * Engine emb) :=
  let* present := path_exists (model_path self) in
  if present then
    try_except
      (let* v := pickle_load (model_path self) in
       ret (true, set_model self v))
      (fun e =>
       let* _ := print_err (ErrorLoadingModel e) in
       ret (false, self))
  else ret (false, self).

Definition init (model_path : string) : IO (Engine emb) :=
  let self := mkEngine model_path PyNone in
  let* '(_, self) := load_model self in
  ret self.

Definition save_model (self : Engine emb) : IO unit :=
  pickle_dump (model self) (model_path self).

(** The text of the line printed at line 73. *)
Definition processed_text (image_path person_name : string) : string :=
  "Processed " ++ image_path ++ " - Found face of " ++ person_name.

(** The [print] of line 73, the one line on [stdout] that carries file
    names: it raises when [stdout] cannot encode the text.  The other
    lines on [stdout] are ASCII (a count, JSON with escapes, the help
    text), and [stderr] replaces what it cannot encode. *)
Definition print_processed (image_path person_name : string) : IO unit :=
  if stdout_encodes E (processed_text image_path person_name)
  then print (ProcessedFace image_path person_name)
  else call (inl (Exception "UnicodeEncodeError")).

(** The body of the inner loop of [train]: one image file.  The two
    lists are appended to in place before the [print]; when the
    [print] raises, the handler of the [try] goes on with the lists as
    they are then. *)
Definition train_image (person_name person_dir image_file : string)
    (acc : list emb * list string) : IO (list emb * list string) :=
  let '(face_encodings_, face_names) := acc in
  let image_path := join person_dir image_file in
  let handler kept := fun e =>
    let* _ := print_err (ErrorProcessing image_path e) in
    ret kept in
  if negb (is_image image_path) then ret acc
  else
    try_except
      (let* image := call (load_image_file E image_path) in
       let* encodings := call (face_encodings E image None) in
       match encodings with
       | first :: _ =>
           let appended :=
             (face_encodings_ ++ [first], face_names ++ [person_name]) in
           try_except
             (let* _ := print_processed image_path person_name in
              ret appended)
             (handler appended)
       | [] =>
           let* _ := print_err (WarningNoFace image_path) in
           ret acc
       end)
      (handler acc).

(** The body of the outer loop of [train]: one entry of the training
    directory. *)
Definition train_person (training_dir person_name : string)
    (acc : list emb * list string) : IO (list emb * list string) :=
  let person_dir := join training_dir person_name in
  if negb (isdir E person_dir) then ret acc
  else
    let* image_files := call (listdir E person_dir) in
    for_each image_files (train_image person_name person_dir) acc.

(** Lines 49-77 of [train]: the two nested loops. *)
Definition collect (training_dir : string) : IO (list emb * list string) :=
  let* people := call (listdir E training_dir) in
  for_each people (train_person training_dir) ([], []).

(** When [save_model] raises, [self.model] has been assigned already;
    the exception is all the caller gets. *)
Definition train (self : Engine emb) (training_dir : string)
    : IO (nat * Engine emb) :=
  let* '(face_encodings_, face_names) := collect training_dir in
  if (0 <? length face_encodings_)%nat then
    let clf := new_classifier (Nat.min 5 (length face_encodings_)) in
    let self := set_model self (PyKNN (fit clf face_encodings_ face_names)) in
    let* _ := save_model self in
    ret (length face_encodings_, self)
  else
    let* _ := print_err TrainingFailed in
    ret (0%nat, self).

(** [self.model.kneighbors(...)] and [self.model.predict(...)]: only a
    classifier has these attributes. *)
Definition model_kneighbors (m : pyval emb) (x : emb) : exn + float :=
  match m with
  | PyKNN c => kneighbors E c x
  | _ => inl (Exception "AttributeError: kneighbors")
  end.

Definition model_predict (m : pyval emb) (x : emb) : exn + string :=
  match m with
  | PyKNN c => predict E c x
  | _ => inl (Exception "AttributeError: predict")
  end.

(** [x in l] on a list of strings. *)
Definition contains (l : list string) (x : string) : bool :=
  existsb (String.eqb x) l.

(** The body of the loop of [recognize]: one face. *)
Definition recognize_face (self : Engine emb) (tolerance : float)
    (face_encoding : emb) (people_found : list string) : IO (list string) :=
  let* closest := call (model_kneighbors (model self) face_encoding) in
  let is_match := SFleb closest tolerance in
  if is_match then
    let* person_name := call (model_predict (model self) face_encoding) in
    if negb (contains people_found person_name)
    then ret (people_found ++ [person_name])
    else ret people_found
  else ret people_found.

(** Lines 101-119: the body of the [try] of [recognize]. *)
Definition recognize_body (self : Engine emb) (image_path : string)
    (tolerance : float) : IO (list string) :=
  let* image := call (load_image_file E image_path) in
  let* locations := call (face_locations E image) in
  let* encodings := call (face_encodings E image (Some locations)) in
  for_each encodings (recognize_face self tolerance) [].

Definition recognize (self : Engine emb) (image_path : string)
    (tolerance : float) : IO (list string) :=
  let* loaded := call (truth_value (model self)) in
  if negb loaded then
    let* _ := print_err NoTrainedModel in
    ret []
  else
    try_except
      (recognize_body self image_path tolerance)
      (fun e =>
       let* _ := print_err (ErrorRecognizing image_path e) in
       ret []).

(** The body of the loop of [process_directory]: one directory entry. *)
Definition process_file (engine : Engine emb) (directory_path filename : string)
    (results : dict) : IO dict :=
  let file_path := join directory_path filename in
  if negb (is_image file_path) then ret results
  else
    try_except
      (let* people := recognize engine file_path default_tolerance in
       ret (dict_set filename (Labels people) results))
      (fun e =>
       let* _ := print_err (ErrorProcessing file_path e) in
       ret (dict_set filename (ErrorEntry (str e)) results)).

Definition process_directory (engine : Engine emb) (directory_path : string)
    (json_output : bool) : IO batch_result :=
  let* filenames := call (listdir E directory_path) in
  let* results := for_each filenames (process_file engine directory_path) [] in
  if json_output then ret (JsonText results) else ret (Native results).

(** The [__main__] block. *)
Definition main (args : Args) : IO unit :=
  let* engine := init (arg_model args) in
  match given (arg_train args) with
  | Some training_dir =>
      let* '(count, _) := train engine training_dir in
      print (TrainingComplete count)
  | None =>
  match given (arg_recognize args) with
  | Some image_path =>
      let* people := recognize engine image_path (arg_tolerance args) in
      print (PrintPeople people)
  | None =>
  match given (arg_process_dir args) with
  | Some directory_path =>
      let* results := process_directory engine directory_path true in
      print (PrintBatch results)
  | None => print PrintHelp
  end end end.

End Program.

Arguments set_model {E}.
Arguments log_fs {E}.

(** ** Vocabulary of the properties *)

(** Index of the first occurrence of [x] in [l] (the length of [l] when
    there is none). *)
Fixpoint position (x : string) (l : list string) : nat :=
  match l with
  | [] => 0
  | y :: l' => if String.eqb y x then 0 else S (position x l')
  end.

Section Vocabulary.
Variable E : Env.

Local Abbreviation emb := (embedding E).

(** The label one face contributes when its iteration completes:
    the prediction if the nearest distance is within the tolerance. *)
Definition face_label (m : pyval emb) (tolerance : float) (x : emb) : option string :=
  match model_kneighbors E m x with
  | inr d =>
      if SFleb d tolerance then
        match model_predict E m x with
        | inr name => Some name
        | inl _ => None
        end
      else None
  | inl _ => None
  end.

(** Lines 102-104: decode, detect, encode. *)
Definition detected_faces (image_path : string) : exn + list emb :=
  match load_image_file E image_path with
  | inr img =>
      match face_locations E img with
      | inr locs => face_encodings E img (Some locs)
      | inl e => inl e
      end
  | inl e => inl e
  end.

(** [people_found] after one completed iteration, for face [x]. *)
Definition add_face (m : pyval emb) (tolerance : float)
    (found : list string) (x : emb) : list string :=
  match face_label m tolerance x with
  | Some name => if contains found name then found else found ++ [name]
  | None => found
  end.

(** [people_found] after the faces [encodings], starting from [found],
    when every iteration completes. *)
Definition found_after (m : pyval emb) (tolerance : float)
    (found : list string) (encodings : list emb) : list string :=
  fold_left (add_face m tolerance) encodings found.

(** The iteration for face [x] raises [e]. *)
Definition face_raises (m : pyval emb) (tolerance : float) (x : emb) (e : exn) : Prop :=
  model_kneighbors E m x = inl e \/
  exists d, model_kneighbors E m x = inr d /\ SFleb d tolerance = true /\
            model_predict E m x = inl e.

(** The iteration for face [x] completes. *)
Definition face_completes (m : pyval emb) (tolerance : float) (x : emb) : Prop :=
  exists d, model_kneighbors E m x = inr d /\
            (SFleb d tolerance = true -> exists name, model_predict E m x = inr name).

(** An exception [e] is raised inside the [try] of [recognize]: while
    decoding, detecting, encoding, or classifying some face after the
    faces before it went through. *)
Inductive raises_in_try (m : pyval emb) (image_path : string) (tolerance : float)
    (e : exn) : Prop :=
  | raise_decode :
      load_image_file E image_path = inl e ->
      raises_in_try m image_path tolerance e
  | raise_detect img :
      load_image_file E image_path = inr img ->
      face_locations E img = inl e ->
      raises_in_try m image_path tolerance e
  | raise_encode img locs :
      load_image_file E image_path = inr img ->
      face_locations E img = inr locs ->
      face_encodings E img (Some locs) = inl e ->
      raises_in_try m image_path tolerance e
  | raise_classify img locs before x after :
      load_image_file E image_path = inr img ->
      face_locations E img = inr locs ->
      face_encodings E img (Some locs) = inr (before ++ x :: after) ->
      Forall (face_completes m tolerance) before ->
      face_raises m tolerance x e ->
      raises_in_try m image_path tolerance e.

(** Index of the first face whose label is [name] (the length of the
    sequence when there is none). *)
Fixpoint first_face (m : pyval emb) (tolerance : float) (name : string)
    (encodings : list emb) : nat :=
  match encodings with
  | [] => 0
  | x :: rest =>
      match face_label m tolerance x with
      | Some n => if String.eqb n name then 0 else S (first_face m tolerance name rest)
      | None => S (first_face m tolerance name rest)
      end
  end.

(** Rank of [name] once [found] holds the labels seen so far and
    [encodings] are the faces still to come. *)
Definition rank (m : pyval emb) (tolerance : float) (found : list string)
    (encodings : list emb) (name : string) : nat :=
  if contains found name then position name found
  else length found + first_face m tolerance name encodings.

(** The entry [process_directory] stores for one file, from the outcome
    of the call to [recognize]. *)
Definition entry_of (r : exn + list string) : entry :=
  match r with
  | inr people => Labels people
  | inl e => ErrorEntry (str e)
  end.

(** The layout of a training directory with one image per person and
    one face per image: [people] are the subdirectories in listing
    order, [faces] the embedding found in each one's image. *)
Definition one_face_each (training_dir : string) (people : list string)
    (faces : list emb) : Prop :=
  exists entries,
    listdir E training_dir = inr entries /\
    people = List.filter (fun n => isdir E (join training_dir n)) entries /\
    Forall2 (fun person x =>
      exists image_files image_file img,
        listdir E (join training_dir person) = inr image_files /\
        List.filter (fun f => is_image (join (join training_dir person) f)) image_files
          = [image_file] /\
        load_image_file E (join (join training_dir person) image_file) = inr img /\
        face_encodings E img None = inr [x]) people faces.

(** The claim that training on such a layout fits and persists a
    classifier over all of [people], as the specification words it. *)
Definition fits_and_persists (self : Engine emb) (training_dir : string)
    (w : World emb) (people : list string) (faces : list emb) : Prop :=
  exists c w',
    train E self training_dir w = (inr (length people, set_model self (PyKNN c)), w') /\
    n_neighbors c = Nat.min 5 (length people) /\
    fit_X c = faces /\
    classes_ c = list_to_set people /\
    files w' !! model_path self = Some (Pickled (PyKNN c)).

End Vocabulary.

(** The model files and the file-system log of [w] are those of [w0]. *)
Definition same_files {T} (w0 w : World T) : Prop :=
  files w = files w0 /\ fs_log w = fs_log w0.

(** ** A concrete environment

    Faces are numbered; an image is the list of the faces in it. *)

Module Studio.

Definition lookup {A} (table : list (string * A)) (missing : exn) (k : string) : exn + A :=
  match find (fun kv => String.eqb (fst kv) k) table with
  | Some kv => inr (snd kv)
  | None => inl missing
  end.

Definition half : float := S754_finite false 4503599627370496 (-53).
Definition three_quarters : float := S754_finite false 6755399441055744 (-53).
Definition three_tenths : float := S754_finite false 5404319552844595 (-54).

Definition directories : list (string * list string) :=
  [ ("train", ["alice"; "notes.txt"; "bob"]);
    ("train/alice", ["a1.jpg"; "a1.txt"]);
    ("train/bob", ["B1.PNG"]);
    ("empty", []);
    ("blank", ["nobody"]);
    ("blank/nobody", ["wall.jpeg"]);
    ("photos", ["a.jpg"; "bad.jpg"; "readme.md"; "b.png"]);
    ("album", ["a.jpg"]) ].

Definition images : list (string * list nat) :=
  [ ("train/alice/a1.jpg", [1]);
    ("train/bob/B1.PNG", [2]);
    ("blank/nobody/wall.jpeg", []);
    ("photos/a.jpg", [1]);
    ("photos/b.png", [2; 4]);
    ("album/a.jpg", [1]);
    ("pair.jpg", [1; 7]);
    ("group.jpg", [2; 4; 1; 3; 7; 2]);
    ("edge.jpg", [3]);
    ("crash.jpg", [1; 5]);
    ("crash2.jpg", [2; 6]) ].

(** Face 5 makes [kneighbors] raise; face 3 lies exactly at 0.6. *)
Definition distance (x : nat) : exn + float :=
  match x with
  | 1 | 2 | 6 | 7 => inr half
  | 3 => inr default_tolerance
  | 5 => inl (Exception "ValueError: kneighbors")
  | _ => inr three_quarters
  end.

(** Face 6 makes [predict] raise. *)
Definition label (x : nat) : exn + string :=
  match x with
  | 1 | 7 => inr "alice"
  | 2 => inr "bob"
  | 3 => inr "carol"
  | 6 => inl (Exception "ValueError: predict")
  | _ => inr "bob"
  end.

Definition env : Env :=
  {| image := list nat;
     box := nat;
     embedding := nat;
     listdir := lookup directories (Exception "FileNotFoundError");
     isdir := fun p => match lookup directories (Exception "") p with
                       | inr _ => true
                       | inl _ => false
                       end;
     open_wb := fun p => if startswith p "nodir/"
                         then inl (Exception "FileNotFoundError")
                         else inr tt;
     stdout_encodes := fun _ => true;
     load_image_file := lookup images (Exception "cannot identify image file");
     face_locations := fun img => inr (seq 0 (length img));
     face_encodings := fun img _ => inr img;
     kneighbors := fun _ x => distance x;
     predict := fun _ x => label x |}.

Definition clf : KNeighborsClassifier nat := mkKNN 2 [1; 2] ["alice"; "bob"].

Definition trained : Engine nat := mkEngine "face_model.pkl" (PyKNN clf).

Definition untrained : Engine nat := mkEngine "face_model.pkl" PyNone.

(** No model file, nothing printed yet. *)
Definition fresh : World nat := mkWorld ∅ [] [] [].

(** A model file holding [clf]. *)
Definition with_model : World nat :=
  mkWorld {[ "face_model.pkl" := Pickled (PyKNN clf) ]} [] [] [].

(** A model file that does not unpickle. *)
Definition with_garbage : World nat :=
  mkWorld {[ "face_model.pkl" := Corrupt (Exception "UnpicklingError") ]} [] [] [].

(** An engine whose model is an object with an ambiguous truth value
    (a pickled array of several elements). *)
Definition odd : Engine nat :=
  mkEngine "face_model.pkl"
    (PyOther (inl (Exception "ValueError: truth value is ambiguous"))).

End Studio.

(** The training samples, read off the image tree. *)

Section Samples.
Variable E : Env.

(** What one file contributes to the training data: the first
    embedding found in it, if the path has an image extension, the
    image decodes and holds a face. *)
Definition first_encoding (image_path : string) : option (embedding E) :=
  if is_image image_path then
    match load_image_file E image_path with
    | inr img =>
        match face_encodings E img None with
        | inr (first :: _) => Some first
        | _ => None
        end
    | inl _ => None
    end
  else None.

(** The samples of one person directory, for its listing [image_files]. *)
Definition person_samples (person_dir person_name : string)
    (image_files : list string) : list (embedding E * string) :=
  flat_map (fun f => match first_encoding (join person_dir f) with
                     | Some x => [(x, person_name)]
                     | None => []
                     end) image_files.

(** The samples of a training directory, for its listing [entries]. *)
Definition training_samples (training_dir : string) (entries : list string)
    : list (embedding E * string) :=
  flat_map (fun person =>
              if isdir E (join training_dir person) then
                match listdir E (join training_dir person) with
                | inr image_files =>
                    person_samples (join training_dir person) person image_files
                | inl _ => []
                end
              else []) entries.

(** The samples and labels go in pairs, and every label is a listed
    entry that is a directory. *)
Definition paired (training_dir : string) (entries : list string)
    (acc : list (embedding E) * list string) : Prop :=
  length (fst acc) = length (snd acc) /\
  forall n, In n (snd acc) -> In n entries /\ isdir E (join training_dir n) = true.

End Samples.

(** [c in s] on the characters of a string. *)
Fixpoint has_char (c : ascii) (s : string) : bool :=
  match s with
  | EmptyString => false
  | String c' s' => Ascii.eqb c c' || has_char c s'
  end.

(** A second environment: the tree of [Studio] with a person
    directory that cannot be listed and a portrait showing two faces. *)

Module Lockers.

Definition listing (path : string) : exn + list string :=
  if String.eqb path "vault" then inr ["alice"; "locked"; "bob"]
  else if String.eqb path "vault/alice" then inr ["duo.jpg"; "blurred.png"]
  else if String.eqb path "vault/bob" then inr ["b.jpg"]
  else if String.eqb path "vault/locked" then inl (Exception "PermissionError")
  else if String.eqb path "open" then inr ["alice"]
  else if String.eqb path "open/alice" then inr ["duo.jpg"; "blurred.png"; "gone.jpg"]
  else inl (Exception "FileNotFoundError").

Definition is_directory (path : string) : bool :=
  existsb (String.eqb path)
    ["vault"; "vault/alice"; "vault/locked"; "vault/bob"; "open"; "open/alice"].

Definition images : list (string * list nat) :=
  [ ("vault/alice/duo.jpg", [1; 2]);
    ("vault/alice/blurred.png", []);
    ("vault/bob/b.jpg", [2]);
    ("open/alice/duo.jpg", [1; 2]);
    ("open/alice/blurred.png", []) ].

Definition env : Env :=
  {| image := list nat;
     box := nat;
     embedding := nat;
     listdir := listing;
     isdir := is_directory;
     open_wb := fun _ => inr tt;
     stdout_encodes := fun _ => true;
     load_image_file := Studio.lookup images (Exception "cannot identify image file");
     face_locations := fun img => inr (seq 0 (length img));
     face_encodings := fun img _ => inr img;
     kneighbors := fun _ x => Studio.distance x;
     predict := fun _ x => Studio.label x |}.

End Lockers.

(** A third environment: a [stdout] that encodes ASCII only, and a
    portrait whose name holds the byte 233. *)

Module Legacy.

Definition ascii_only (s : string) : bool :=
  forallb (fun c => (nat_of_ascii c <? 128)%nat) (list_ascii_of_string s).

Definition zoe : string := String "z" (String "o" (String (ascii_of_nat 233) ".jpg")).

Definition env : Env :=
  {| image := list nat;
     box := nat;
     embedding := nat;
     listdir := fun _ => inl (Exception "FileNotFoundError");
     isdir := fun _ => false;
     open_wb := fun _ => inr tt;
     stdout_encodes := ascii_only;
     load_image_file := fun p => if String.eqb p (join "old/zoe" zoe)
                                 then inr [1]
                                 else inl (Exception "cannot identify image file");
     face_locations := fun img => inr (seq 0 (length img));
     face_encodings := fun img _ => inr img;
     kneighbors := fun _ x => Studio.distance x;
     predict := fun _ x => Studio.label x |}.

End Legacy.

(** ** Properties *)

Ltac run := unfold bind, ret, call, try_except, print, print_err; simpl.

(** *** The monad and its loops *)

Section Loops.
Context {W : Type}.

Lemma for_each_app {A S} (l1 l2 : list A) (body : A -> S -> @M W S) s w :
  for_each (l1 ++ l2) body s w = bind (for_each l1 body s) (for_each l2 body) w.
Proof.
  revert s w. induction l1 as [|x l1 IH]; intros s w; simpl.
  - reflexivity.
  - unfold bind. destruct (body x s w) as [[e|s'] w1]; [reflexivity|].
    rewrite IH. reflexivity.
Qed.

(** A loop whose body leaves an iterate alone on the entries that fail
    a test runs as the loop over the entries that pass it. *)
Lemma for_each_filter {A S} (keep : A -> bool) (l : list A)
    (body : A -> S -> @M W S) s w :
  (forall x s w, keep x = false -> body x s w = (inr s, w)) ->
  for_each l body s w = for_each (List.filter keep l) body s w.
Proof.
  intros Hskip. revert s w. induction l as [|x l IH]; intros s w; simpl.
  - reflexivity.
  - destruct (keep x) eqn:Hk; simpl.
    + unfold bind. destruct (body x s w) as [[e|s'] w1]; [reflexivity|apply IH].
    + unfold bind. rewrite (Hskip x s w Hk). apply IH.
Qed.

(** A property of the world kept by every iteration is kept by the loop. *)
Lemma for_each_frame {A S} (P : W -> Prop) (l : list A)
    (body : A -> S -> @M W S) s w :
  (forall x s w, P w -> P (snd (body x s w))) ->
  P w -> P (snd (for_each l body s w)).
Proof.
  intros Hbody. revert s w. induction l as [|x l IH]; intros s w Hw; simpl.
  - exact Hw.
  - unfold bind. specialize (Hbody x s w Hw).
    destruct (body x s w) as [[e|s'] w1]; simpl in *; [exact Hbody|].
    apply IH, Hbody.
Qed.

End Loops.

Section Store.
Variable E : Env.

Local Abbreviation emb := (embedding E).

Implicit Types (w : World emb) (self : Engine emb) (m : pyval emb).

(** *** The classifier store *)

Lemma load_model_total self w :
  exists ok m w',
    load_model E self w = (inr (ok, set_model self m), w') /\
    files w' = files w /\ stdout w' = stdout w /\
    fs_log w' = fs_log w ++ Exists (model_path self) ::
      (if bool_decide (is_Some (files w !! model_path self))
       then [OpenRead (model_path self)] else []) /\
    match files w !! model_path self with
    | Some (Pickled v) => m = v /\ stderr w' = stderr w
    | Some (Corrupt e) => m = model self /\ stderr w' = stderr w ++ [ErrorLoadingModel e]
    | None => m = model self /\ stderr w' = stderr w
    end.
Proof.
  unfold load_model, path_exists, pickle_load. run.
  destruct self as [mp m0]; simpl.
  destruct (files w !! mp) as [[v|e]|] eqn:Hf; simpl; rewrite ?Hf; simpl.
  - exists true, v. eexists. split; [reflexivity|]. simpl.
    rewrite <- app_assoc. auto.
  - exists false, m0. eexists. split; [reflexivity|]. simpl.
    rewrite <- app_assoc. auto.
  - exists false, m0. eexists. split; [reflexivity|]. simpl. auto.
Qed.

(** C10: constructing an engine never raises.  The constructor calls
    [load_model] once: one existence test of [model_path], followed by
    one open for reading exactly when the file is there.  With no file
    the load is skipped, with a file that fails to deserialize the
    exception is caught and logged; both leave [model] at [None]. *)
Theorem init_never_raises (path : string) w :
  exists self w',
    init E path w = (inr self, w') /\
    model_path self = path /\
    files w' = files w /\
    fs_log w' = fs_log w ++ Exists path ::
      (if bool_decide (is_Some (files w !! path)) then [OpenRead path] else []) /\
    (files w !! path = None ->
       model self = PyNone /\ stderr w' = stderr w) /\
    (forall e, files w !! path = Some (Corrupt e) ->
       model self = PyNone /\ stderr w' = stderr w ++ [ErrorLoadingModel e]).
Proof.
  unfold init.
  destruct (load_model_total (mkEngine path PyNone) w)
    as (ok & m & w' & Hrun & Hfiles & _ & Hlog & Hm).
  simpl in *. unfold bind. rewrite Hrun. simpl.
  exists (mkEngine path m), w'. repeat split; auto.
  - rewrite H in Hm. tauto.
  - rewrite H in Hm. tauto.
  - rewrite H in Hm. tauto.
  - rewrite H in Hm. tauto.
Qed.

End Store.

Lemma init_never_raises_witness :
  exists eng world,
    init Studio.env "face_model.pkl" Studio.with_garbage = (inr eng, world) /\
    model eng = PyNone /\
    stderr world = [ErrorLoadingModel (Exception "UnpicklingError")].
Proof.
  destruct (init_never_raises Studio.env "face_model.pkl" Studio.with_garbage)
    as (eng & world & Hrun & _ & _ & _ & _ & Hcorrupt).
  exists eng, world. split; [exact Hrun|].
  apply (Hcorrupt (Exception "UnpicklingError")). reflexivity.
Defined.

(** *** Training *)

Section Training.
Variable E : Env.

Local Abbreviation emb := (embedding E).

Implicit Types (w : World emb) (self : Engine emb) (m : pyval emb).

Lemma train_image_frame w0 person_name person_dir image_file acc w :
  same_files w0 w ->
  same_files w0 (snd (train_image E person_name person_dir image_file acc w)).
Proof.
  intros Hw. unfold train_image. destruct acc as [xs ns].
  destruct (is_image _); simpl; [|exact Hw].
  run. destruct (load_image_file E _) as [e|img]; simpl; [exact Hw|].
  destruct (face_encodings E img None) as [e|[|x rest]]; simpl; try exact Hw.
  unfold print_processed. destruct (stdout_encodes E _); run; exact Hw.
Qed.

Lemma train_person_frame w0 training_dir person_name acc w :
  same_files w0 w ->
  same_files w0 (snd (train_person E training_dir person_name acc w)).
Proof.
  intros Hw. unfold train_person.
  destruct (isdir E _); simpl; [|exact Hw].
  run. destruct (listdir E _) as [e|image_files]; simpl; [exact Hw|].
  apply for_each_frame; [|exact Hw].
  intros image_file acc' w'. apply train_image_frame.
Qed.

Lemma collect_frame training_dir w :
  same_files w (snd (collect E training_dir w)).
Proof.
  unfold collect. run.
  destruct (listdir E training_dir) as [e|people]; simpl; [split; reflexivity|].
  apply for_each_frame; [|split; reflexivity].
  intros person acc w'. apply train_person_frame.
Qed.

(** C5: a training run that collects zero embeddings returns 0, opens
    no file for writing and leaves every model file as it was, and
    returns the engine with its classifier untouched; the failure is
    only printed on [stderr]. *)
Theorem train_zero_embeddings self training_dir w names w1 :
  collect E training_dir w = (inr ([], names), w1) ->
  train E self training_dir w =
    (inr (0%nat, self),
     mkWorld (files w) (fs_log w) (stdout w1) (stderr w1 ++ [TrainingFailed])).
Proof.
  intros Hc. unfold train. run. rewrite Hc. simpl.
  destruct (collect_frame training_dir w) as [Hf Hl].
  rewrite Hc in Hf, Hl. simpl in Hf, Hl. rewrite Hf, Hl. reflexivity.
Qed.

Lemma train_images_one person_name person_dir image_files image_file img x rest xs ns w :
  List.filter (fun f => is_image (join person_dir f)) image_files = [image_file] ->
  load_image_file E (join person_dir image_file) = inr img ->
  face_encodings E img None = inr (x :: rest) ->
  exists w',
    for_each image_files (train_image E person_name person_dir) (xs, ns) w =
      (inr (xs ++ [x], ns ++ [person_name]), w') /\ same_files w w'.
Proof.
  intros Hone Hload Henc.
  rewrite (for_each_filter (fun f => is_image (join person_dir f))).
  - assert (Himg : is_image (join person_dir image_file) = true).
    { assert (Hin : In image_file [image_file]) by (left; reflexivity).
      rewrite <- Hone in Hin. apply filter_In in Hin. tauto. }
    rewrite Hone. simpl. unfold train_image. rewrite Himg. run.
    rewrite Hload. simpl. rewrite Henc. simpl.
    unfold print_processed. destruct (stdout_encodes E _); run;
      eexists; (split; [reflexivity|]); split; reflexivity.
  - intros f [xs' ns'] w' Hf. unfold train_image. rewrite Hf. reflexivity.
Qed.

Lemma train_people training_dir people faces :
  Forall (fun n => isdir E (join training_dir n) = true) people ->
  Forall2 (fun person x =>
    exists image_files image_file img,
      listdir E (join training_dir person) = inr image_files /\
      List.filter (fun f => is_image (join (join training_dir person) f)) image_files
        = [image_file] /\
      load_image_file E (join (join training_dir person) image_file) = inr img /\
      face_encodings E img None = inr [x]) people faces ->
  forall xs ns w, exists w',
    for_each people (train_person E training_dir) (xs, ns) w =
      (inr (xs ++ faces, ns ++ people), w') /\ same_files w w'.
Proof.
  intros Hdirs Hall. induction Hall as [|person x people faces Hp _ IH];
    intros xs ns w.
  - exists w. simpl. rewrite !app_nil_r. repeat split.
  - inversion Hdirs as [|? ? Hdir Hdirs']; subst.
    destruct Hp as (image_files & image_file & img & Hls & Hone & Hload & Henc).
    simpl. unfold bind at 1. unfold train_person at 1. rewrite Hdir. simpl.
    unfold bind at 1, call at 1. rewrite Hls.
    destruct (train_images_one person (join training_dir person) image_files
                image_file img x [] xs ns w Hone Hload Henc)
      as (w1 & -> & Hf1 & Hl1).
    destruct (IH Hdirs' (xs ++ [x]) (ns ++ [person]) w1) as (w' & Hrun & Hf & Hl).
    exists w'. rewrite Hrun, <- !app_assoc. simpl.
    repeat split; congruence.
Qed.

Lemma collect_one_face_each training_dir people faces w :
  one_face_each E training_dir people faces ->
  exists w', collect E training_dir w = (inr (faces, people), w') /\ same_files w w'.
Proof.
  intros (entries & Hls & Hpeople & Hall).
  unfold collect. unfold bind at 1, call at 1. rewrite Hls.
  rewrite (for_each_filter (fun n => isdir E (join training_dir n))).
  - rewrite <- Hpeople.
    apply (train_people training_dir people faces) with (xs := []) (ns := []);
      [|exact Hall].
    rewrite Hpeople. apply List.Forall_forall. intros n Hn.
    apply filter_In in Hn. tauto.
  - intros n acc w' Hn. unfold train_person. rewrite Hn. reflexivity.
Qed.

(** C6 (amended): for a training directory with N >= 1 subdirectories,
    each holding exactly one image with exactly one detectable face,
    and a [model_path] that can be opened for writing, [train] returns
    N, fits a classifier with [n_neighbors = min(5, N)] on the one
    embedding of each image, whose label set is the N subdirectory
    names, and writes it to [model_path]. *)
Theorem train_one_face_each self training_dir w people faces :
  one_face_each E training_dir people faces ->
  people <> [] ->
  open_wb E (model_path self) = inr tt ->
  fits_and_persists E self training_dir w people faces.
Proof.
  intros Hlayout Hne Hopen.
  assert (Hlen : length people = length faces).
  { destruct Hlayout as (_ & _ & _ & Hall). exact (Forall2_length _ _ _ Hall). }
  destruct (collect_one_face_each training_dir people faces w Hlayout)
    as (w' & Hc & Hf & Hl).
  exists (mkKNN (Nat.min 5 (length people)) faces people).
  eexists. unfold train. unfold bind at 1. rewrite Hc.
  assert (Hpos : (0 <? length faces)%nat = true).
  { apply Nat.ltb_lt. rewrite <- Hlen. destruct people; [congruence|simpl; lia]. }
  rewrite Hpos. unfold save_model, pickle_dump, new_classifier, fit.
  cbn [model_path model set_model]. rewrite Hopen. run.
  rewrite <- Hlen. split; [reflexivity|]. simpl.
  repeat split. apply lookup_insert_eq.
Qed.

End Training.

Lemma train_zero_embeddings_witness :
  train Studio.env Studio.trained "blank" Studio.fresh =
    (inr (0%nat, Studio.trained),
     mkWorld ∅ [] [] [WarningNoFace "blank/nobody/wall.jpeg"; TrainingFailed]).
Proof.
  apply (train_zero_embeddings Studio.env Studio.trained "blank" Studio.fresh []
           (mkWorld ∅ [] [] [WarningNoFace "blank/nobody/wall.jpeg"])).
  reflexivity.
Defined.

Lemma train_one_face_each_witness :
  fits_and_persists Studio.env Studio.untrained "train" Studio.fresh
    ["alice"; "bob"] [1; 2].
Proof.
  apply (train_one_face_each Studio.env Studio.untrained "train" Studio.fresh
           ["alice"; "bob"] [1; 2]); [|discriminate|reflexivity].
  exists ["alice"; "notes.txt"; "bob"]. repeat split.
  repeat constructor.
  - exists ["a1.jpg"; "a1.txt"], "a1.jpg", [1]. repeat split.
  - exists ["B1.PNG"], "B1.PNG", [2]. repeat split.
Defined.

(** C6 as stated fails in two ways.  For N = 0, on a training directory
    without subdirectories, [train] returns 0 but fits and persists
    nothing.  And for N = 2 with a [model_path] in a directory that
    does not exist, [train] raises the exception of [open] instead of
    returning, and no file is written. *)
Lemma train_fits_nothing_or_raises :
  (one_face_each Studio.env "empty" [] [] /\
   ~ fits_and_persists Studio.env Studio.untrained "empty" Studio.fresh [] []) /\
  (one_face_each Studio.env "train" ["alice"; "bob"] [1; 2] /\
   fst (train Studio.env (mkEngine "nodir/face_model.pkl" PyNone) "train" Studio.fresh)
     = inl (Exception "FileNotFoundError") /\
   files (snd (train Studio.env (mkEngine "nodir/face_model.pkl" PyNone) "train"
                 Studio.fresh)) = ∅ /\
   ~ fits_and_persists Studio.env (mkEngine "nodir/face_model.pkl" PyNone) "train"
       Studio.fresh ["alice"; "bob"] [1; 2]).
Proof.
  split; split.
  - exists []. repeat split. constructor.
  - intros (c & world & Htrain & _). vm_compute in Htrain. discriminate Htrain.
  - exists ["alice"; "notes.txt"; "bob"]. repeat split.
    repeat constructor.
    + exists ["a1.jpg"; "a1.txt"], "a1.jpg", [1]. repeat split.
    + exists ["B1.PNG"], "B1.PNG", [2]. repeat split.
  - split; [reflexivity|]. split; [reflexivity|].
    intros (c & world & Htrain & _). vm_compute in Htrain. discriminate Htrain.
Qed.

(** *** Lists of labels *)

Lemma contains_In (l : list string) (x : string) : contains l x = true <-> In x l.
Proof.
  unfold contains. rewrite existsb_exists. split.
  - intros (y & Hy & Heq). apply String.eqb_eq in Heq. subst. exact Hy.
  - intros Hx. exists x. split; [exact Hx|apply String.eqb_refl].
Qed.

Lemma contains_false (l : list string) (x : string) : contains l x = false <-> ~ In x l.
Proof.
  rewrite <- contains_In. destruct (contains l x); split; congruence.
Qed.

Lemma position_lt (x : string) (l : list string) : In x l -> position x l < length l.
Proof.
  induction l as [|y l IH]; simpl; [tauto|].
  intros [Hy|Hx].
  - subst. rewrite String.eqb_refl. lia.
  - destruct (String.eqb y x); [lia|]. specialize (IH Hx). lia.
Qed.

Lemma position_app_l (x : string) (l l' : list string) :
  In x l -> position x (l ++ l') = position x l.
Proof.
  induction l as [|y l IH]; simpl; [tauto|].
  intros [Hy|Hx].
  - subst. rewrite String.eqb_refl. reflexivity.
  - destruct (String.eqb y x); [reflexivity|]. rewrite (IH Hx). reflexivity.
Qed.

Lemma position_app_r (x : string) (l l' : list string) :
  ~ In x l -> position x (l ++ l') = length l + position x l'.
Proof.
  induction l as [|y l IH]; simpl; [reflexivity|].
  intros Hx. destruct (String.eqb y x) eqn:Heq.
  - apply String.eqb_eq in Heq. tauto.
  - rewrite IH by tauto. reflexivity.
Qed.

Lemma position_lookup (l : list string) (i : nat) (x : string) :
  List.NoDup l -> l !! i = Some x -> position x l = i.
Proof.
  intros Hnd. revert i. induction Hnd as [|y l Hy Hnd IH]; intros i Hi.
  - destruct i; discriminate.
  - destruct i as [|i]; simpl in *.
    + injection Hi as ->. rewrite String.eqb_refl. reflexivity.
    + destruct (String.eqb y x) eqn:Heq.
      * apply String.eqb_eq in Heq. subst. exfalso. apply Hy.
        apply list_elem_of_In, list_elem_of_lookup. eauto.
      * rewrite (IH i Hi). reflexivity.
Qed.

(** *** Recognition *)

Section Recognition.
Variable E : Env.

Local Abbreviation emb := (embedding E).

Implicit Types (w : World emb) (self : Engine emb) (m : pyval emb).

(** The pure loop [found_after]. *)

Lemma add_face_cases m tol found x :
  add_face E m tol found x = found \/
  exists name, face_label E m tol x = Some name /\ ~ In name found /\
               add_face E m tol found x = found ++ [name].
Proof.
  unfold add_face. destruct (face_label E m tol x) as [name|]; [|now left].
  destruct (contains found name) eqn:Hc; [now left|].
  right. exists name. apply contains_false in Hc. auto.
Qed.

Lemma add_face_NoDup m tol found x :
  List.NoDup found -> List.NoDup (add_face E m tol found x).
Proof.
  intros Hnd. destruct (add_face_cases m tol found x) as [->|(name & _ & Hn & ->)].
  - exact Hnd.
  - apply List.NoDup_rev in Hnd. rewrite <- (rev_involutive (found ++ [name])).
    apply List.NoDup_rev. rewrite rev_app_distr. simpl. constructor; [|exact Hnd].
    rewrite <- in_rev. exact Hn.
Qed.

Lemma found_after_NoDup m tol encs found :
  List.NoDup found -> List.NoDup (found_after E m tol found encs).
Proof.
  revert found. induction encs as [|x encs IH]; intros found Hnd; simpl.
  - exact Hnd.
  - apply IH, add_face_NoDup, Hnd.
Qed.

Lemma add_face_In m tol found x name :
  In name (add_face E m tol found x) <->
  In name found \/ face_label E m tol x = Some name.
Proof.
  unfold add_face. destruct (face_label E m tol x) as [n|].
  - destruct (contains found n) eqn:Hc.
    + apply contains_In in Hc. split; [tauto|].
      intros [H|H]; [exact H|]. injection H as ->. exact Hc.
    + rewrite in_app_iff. simpl. split.
      * intros [H|[->|[]]]; auto.
      * intros [H|H]; [auto|]. injection H as ->. auto.
  - split; [tauto|]. intros [H|H]; [exact H|discriminate].
Qed.

Lemma found_after_In m tol encs found name :
  In name (found_after E m tol found encs) <->
  In name found \/ exists x, In x encs /\ face_label E m tol x = Some name.
Proof.
  revert found. induction encs as [|x encs IH]; intros found; simpl.
  - split; [tauto|]. intros [H|(x & [] & _)]. exact H.
  - rewrite IH, add_face_In. split.
    + intros [[H|H]|(y & Hy & Hl)]; eauto.
    + intros [H|(y & [->|Hy] & Hl)]; eauto.
Qed.

Lemma rank_bounds m tol found encs name :
  if contains found name
  then rank E m tol found encs name < length found
  else length found <= rank E m tol found encs name.
Proof.
  unfold rank. destruct (contains found name) eqn:Hc; [|lia].
  apply position_lt, contains_In, Hc.
Qed.

(** One iteration either leaves [found] alone, and then shifts the
    rank of every label not yet found by one, or appends a new label,
    and then changes no rank. *)
Lemma rank_step m tol found x encs :
  (add_face E m tol found x = found /\
   forall name, rank E m tol found (x :: encs) name =
                rank E m tol found encs name + (if contains found name then 0 else 1)) \/
  (forall name, rank E m tol (add_face E m tol found x) encs name =
                rank E m tol found (x :: encs) name).
Proof.
  unfold add_face, rank. simpl.
  destruct (face_label E m tol x) as [n|].
  - destruct (contains found n) eqn:Hn.
    + left. split; [reflexivity|]. intros name.
      destruct (contains found name) eqn:Hc; [lia|].
      destruct (String.eqb n name) eqn:Heq; [|lia].
      apply String.eqb_eq in Heq. congruence.
    + right. intros name. apply contains_false in Hn.
      destruct (contains found name) eqn:Hc.
      * apply contains_In in Hc.
        assert (Hc' : contains (found ++ [n]) name = true).
        { apply contains_In, in_or_app. auto. }
        rewrite Hc'. apply position_app_l, Hc.
      * apply contains_false in Hc.
        destruct (String.eqb n name) eqn:Heq.
        -- apply String.eqb_eq in Heq. subst name.
           assert (Hc' : contains (found ++ [n]) n = true).
           { apply contains_In, in_or_app. simpl. auto. }
           rewrite Hc', position_app_r by exact Hc. simpl.
           rewrite String.eqb_refl. reflexivity.
        -- assert (Hc' : contains (found ++ [n]) name = false).
           { apply contains_false. rewrite in_app_iff. simpl.
             apply String.eqb_neq in Heq. tauto. }
           rewrite Hc', length_app. simpl. lia.
  - left. split; [reflexivity|]. intros name.
    destruct (contains found name); lia.
Qed.

Lemma found_after_order m tol encs found a b :
  In a (found_after E m tol found encs) ->
  In b (found_after E m tol found encs) ->
  position a (found_after E m tol found encs)
    < position b (found_after E m tol found encs) <->
  rank E m tol found encs a < rank E m tol found encs b.
Proof.
  revert found. induction encs as [|x encs IH]; intros found Ha Hb; simpl in *.
  - unfold rank. apply contains_In in Ha, Hb. rewrite Ha, Hb. reflexivity.
  - rewrite (IH _ Ha Hb).
    destruct (rank_step m tol found x encs) as [[Hsame Hshift]|Hkeep].
    + rewrite Hsame, (Hshift a), (Hshift b).
      pose proof (rank_bounds m tol found encs a) as Ba.
      pose proof (rank_bounds m tol found encs b) as Bb.
      destruct (contains found a), (contains found b); lia.
    + rewrite (Hkeep a), (Hkeep b). reflexivity.
Qed.

(** The loop of [recognize] against the pure loop. *)

Lemma recognize_face_completes self tol x found w :
  face_completes E (model self) tol x ->
  recognize_face E self tol x found w = (inr (add_face E (model self) tol found x), w).
Proof.
  intros (d & Hd & Hp). unfold recognize_face, add_face, face_label. run.
  rewrite Hd. simpl. destruct (SFleb d tol); [|reflexivity].
  destruct (Hp eq_refl) as (name & ->). simpl.
  destruct (contains found name); reflexivity.
Qed.

Lemma recognize_face_raises self tol x e found w :
  face_raises E (model self) tol x e ->
  recognize_face E self tol x found w = (inl e, w).
Proof.
  intros [Hd|(d & Hd & Hle & Hp)]; unfold recognize_face; run; rewrite Hd; simpl.
  - reflexivity.
  - rewrite Hle, Hp. reflexivity.
Qed.

Lemma recognize_face_inr self tol x found w found' w' :
  recognize_face E self tol x found w = (inr found', w') ->
  found' = add_face E (model self) tol found x /\ w' = w.
Proof.
  unfold recognize_face, add_face, face_label. run.
  destruct (model_kneighbors E (model self) x) as [e|d]; simpl; [discriminate|].
  destruct (SFleb d tol).
  - destruct (model_predict E (model self) x) as [e|name]; simpl; [discriminate|].
    destruct (contains found name); simpl; intros [= <- <-]; auto.
  - intros [= <- <-]; auto.
Qed.

Lemma recognize_face_world self tol x found w :
  snd (recognize_face E self tol x found w) = w.
Proof.
  unfold recognize_face. run.
  destruct (model_kneighbors E (model self) x) as [e|d]; simpl; [reflexivity|].
  destruct (SFleb d tol); [|reflexivity].
  destruct (model_predict E (model self) x) as [e|name]; simpl; [reflexivity|].
  destruct (contains found name); reflexivity.
Qed.

Lemma faces_complete self tol encs found w :
  Forall (face_completes E (model self) tol) encs ->
  for_each encs (recognize_face E self tol) found w =
    (inr (found_after E (model self) tol found encs), w).
Proof.
  intros Hall. revert found. induction Hall as [|x encs Hx _ IH]; intros found; simpl.
  - reflexivity.
  - unfold bind. rewrite (recognize_face_completes _ _ _ _ _ Hx). apply IH.
Qed.

Lemma faces_inr self tol encs found w r w' :
  for_each encs (recognize_face E self tol) found w = (inr r, w') ->
  r = found_after E (model self) tol found encs /\ w' = w.
Proof.
  revert found w. induction encs as [|x encs IH]; intros found w; simpl.
  - intros [= <- <-]; auto.
  - unfold bind.
    destruct (recognize_face E self tol x found w) as [[e|found1] w1] eqn:Hx;
      [discriminate|].
    apply recognize_face_inr in Hx as [-> ->]. apply IH.
Qed.

Lemma faces_world self tol encs found w :
  snd (for_each encs (recognize_face E self tol) found w) = w.
Proof.
  apply (for_each_frame (fun w' => w' = w)); [|reflexivity].
  intros x s w0 ->. apply recognize_face_world.
Qed.

Lemma faces_raise self tol before x after e found w :
  Forall (face_completes E (model self) tol) before ->
  face_raises E (model self) tol x e ->
  for_each (before ++ x :: after) (recognize_face E self tol) found w = (inl e, w).
Proof.
  intros Hbefore Hx. rewrite for_each_app. unfold bind at 1.
  rewrite (faces_complete _ _ _ _ _ Hbefore). simpl. unfold bind.
  rewrite (recognize_face_raises _ _ _ _ _ _ Hx). reflexivity.
Qed.

Lemma recognize_body_eq self image_path tol w :
  recognize_body E self image_path tol w =
    match detected_faces E image_path with
    | inr encs => for_each encs (recognize_face E self tol) [] w
    | inl e => (inl e, w)
    end.
Proof.
  unfold recognize_body, detected_faces. run.
  destruct (load_image_file E image_path) as [e|img]; simpl; [reflexivity|].
  destruct (face_locations E img) as [e|locs]; simpl; [reflexivity|].
  destruct (face_encodings E img (Some locs)) as [e|encs]; reflexivity.
Qed.

Lemma raises_in_try_body self image_path tol e w :
  raises_in_try E (model self) image_path tol e ->
  recognize_body E self image_path tol w = (inl e, w).
Proof.
  intros Hraise. rewrite recognize_body_eq. unfold detected_faces.
  destruct Hraise as [Hl|img Hl Hd|img locs Hl Hd He|img locs before x after Hl Hd He Hb Hx];
    rewrite Hl; try rewrite Hd; try rewrite He; try reflexivity.
  apply faces_raise; assumption.
Qed.

(** What [recognize] returns is either the empty list or the outcome
    of a completed loop over the detected faces. *)
Lemma recognize_inr self image_path tol w r w' :
  recognize E self image_path tol w = (inr r, w') ->
  r = [] \/
  exists encs, detected_faces E image_path = inr encs /\
               r = found_after E (model self) tol [] encs.
Proof.
  unfold recognize. run.
  destruct (truth_value (model self)) as [e|[|]]; simpl; [discriminate| |].
  - rewrite recognize_body_eq.
    destruct (detected_faces E image_path) as [e|encs]; simpl.
    + intros [= <- _]. now left.
    + destruct (for_each encs _ [] w) as [[e|r1] w1] eqn:Hloop; simpl.
      * intros [= <- _]. now left.
      * intros [= <- _]. right. exists encs. split; [reflexivity|].
        apply faces_inr in Hloop. tauto.
  - intros [= <- _]. now left.
Qed.

Lemma recognize_completes self image_path tol w encs :
  truth_value (model self) = inr true ->
  detected_faces E image_path = inr encs ->
  Forall (face_completes E (model self) tol) encs ->
  recognize E self image_path tol w =
    (inr (found_after E (model self) tol [] encs), w).
Proof.
  intros Ht Hd Hall. unfold recognize. run. rewrite Ht. simpl.
  rewrite recognize_body_eq, Hd, (faces_complete _ _ _ _ _ Hall). reflexivity.
Qed.

Lemma recognize_raises_in_try self image_path tol e w :
  truth_value (model self) = inr true ->
  raises_in_try E (model self) image_path tol e ->
  recognize E self image_path tol w =
    (inr [], mkWorld (files w) (fs_log w) (stdout w)
               (stderr w ++ [ErrorRecognizing image_path e])).
Proof.
  intros Ht Hraise. unfold recognize. run. rewrite Ht. simpl.
  rewrite (raises_in_try_body _ _ _ _ w Hraise). reflexivity.
Qed.

Lemma SFeqb_SFleb (d t : float) :
  SFeqb d t = true -> SFleb d t = true /\ SFltb d t = false.
Proof.
  unfold SFeqb, SFleb, SFltb. destruct (SFcompare d t) as [[| |]|]; intros H;
    try discriminate H; split; reflexivity.
Qed.

(** C4: with no classifier loaded ([self.model] is [None]), [recognize]
    returns the empty list for every image path and tolerance and does
    not raise; the only effect is one message on [stderr]. *)
Theorem recognize_without_model self image_path tol w :
  model self = PyNone ->
  recognize E self image_path tol w =
    (inr [], mkWorld (files w) (fs_log w) (stdout w) (stderr w ++ [NoTrainedModel])).
Proof.
  intros Hm. unfold recognize. rewrite Hm. reflexivity.
Qed.

(** C3: with a classifier loaded, a detected face whose nearest
    distance equals the tolerance is a match (the test is [<=], it
    holds where [<] fails): its iteration adds the predicted label to
    [people_found], and the label is in the list [recognize] returns
    when the iterations of all faces of the image complete. *)
Theorem tolerance_boundary_is_match c path image_path tol w encs x d name :
  detected_faces E image_path = inr encs ->
  In x encs ->
  kneighbors E c x = inr d ->
  SFeqb d tol = true ->
  predict E c x = inr name ->
  SFleb d tol = true /\ SFltb d tol = false /\
  (forall found w0, exists found',
     recognize_face E (mkEngine path (PyKNN c)) tol x found w0 = (inr found', w0) /\
     In name found') /\
  (Forall (face_completes E (PyKNN c) tol) encs ->
   exists r, recognize E (mkEngine path (PyKNN c)) image_path tol w = (inr r, w) /\
             In name r).
Proof.
  intros Hd Hx Hk Heq Hp.
  destruct (SFeqb_SFleb d tol Heq) as [Hle Hlt].
  assert (Hlabel : face_label E (PyKNN c) tol x = Some name).
  { unfold face_label. simpl. rewrite Hk, Hle, Hp. reflexivity. }
  split; [exact Hle|]. split; [exact Hlt|]. split.
  - intros found w0. eexists. split.
    + apply (recognize_face_completes (mkEngine path (PyKNN c))).
      exists d. simpl. split; [exact Hk|]. intros _. exists name. exact Hp.
    + apply add_face_In. auto.
  - intros Hall. eexists. split.
    + apply (recognize_completes (mkEngine path (PyKNN c))); eauto.
    + apply found_after_In. right. exists x. auto.
Qed.

(** C7: the list [recognize] returns holds no label twice; and when the
    iterations of all faces complete, a label that one or more faces of
    the image match occurs in it exactly once. *)
Theorem recognize_no_duplicates self image_path tol w r w' :
  recognize E self image_path tol w = (inr r, w') ->
  List.NoDup r /\
  (forall name, In name r -> count_occ string_dec r name = 1) /\
  (forall encs name,
     truth_value (model self) = inr true ->
     detected_faces E image_path = inr encs ->
     Forall (face_completes E (model self) tol) encs ->
     (exists x, In x encs /\ face_label E (model self) tol x = Some name) ->
     count_occ string_dec r name = 1).
Proof.
  intros Hrun.
  assert (Hnd : List.NoDup r).
  { destruct (recognize_inr _ _ _ _ _ _ Hrun) as [->|(encs & _ & ->)].
    - constructor.
    - apply found_after_NoDup. constructor. }
  split; [exact Hnd|]. split.
  - apply NoDup_count_occ', Hnd.
  - intros encs name Ht Hd Hall Hface.
    rewrite (recognize_completes _ _ _ w _ Ht Hd Hall) in Hrun.
    injection Hrun as <- _.
    apply (proj1 (NoDup_count_occ' string_dec _)).
    + apply found_after_NoDup. constructor.
    + apply found_after_In. auto.
Qed.

(** C8: when an exception is raised inside the [try] of [recognize]
    (decoding, detecting, encoding, or classifying a face after earlier
    faces went through), the call returns the empty list, not the
    labels found so far; the exception is printed on [stderr]. *)
Theorem recognize_exception_yields_empty self image_path tol e w :
  truth_value (model self) = inr true ->
  raises_in_try E (model self) image_path tol e ->
  recognize E self image_path tol w =
    (inr [], mkWorld (files w) (fs_log w) (stdout w)
               (stderr w ++ [ErrorRecognizing image_path e])).
Proof.
  apply recognize_raises_in_try.
Qed.

(** C9: the list [recognize] returns is in first-occurrence order: of
    two labels in it, the one at the smaller index is the one whose
    first matching face comes earlier among the detected faces. *)
Theorem recognize_first_occurrence_order self image_path tol w r w' encs i j a b :
  recognize E self image_path tol w = (inr r, w') ->
  detected_faces E image_path = inr encs ->
  r !! i = Some a ->
  r !! j = Some b ->
  i < j <->
  first_face E (model self) tol a encs < first_face E (model self) tol b encs.
Proof.
  intros Hrun Hd Hi Hj.
  destruct (recognize_inr _ _ _ _ _ _ Hrun) as [->|(encs' & Hd' & Hr)].
  - destruct i; discriminate.
  - assert (encs' = encs) by congruence. subst encs'.
    assert (Hnd : List.NoDup r).
    { rewrite Hr. apply found_after_NoDup. constructor. }
    rewrite <- (position_lookup r i a Hnd Hi), <- (position_lookup r j b Hnd Hj).
    assert (Ha : In a r) by (apply list_elem_of_In, list_elem_of_lookup; eauto).
    assert (Hb : In b r) by (apply list_elem_of_In, list_elem_of_lookup; eauto).
    rewrite Hr in *. rewrite (found_after_order _ _ _ _ _ _ Ha Hb).
    unfold rank. simpl. reflexivity.
Qed.

End Recognition.

Lemma recognize_without_model_witness :
  recognize Studio.env Studio.untrained "edge.jpg" default_tolerance Studio.fresh =
    (inr [], mkWorld ∅ [] [] [NoTrainedModel]).
Proof.
  apply (recognize_without_model Studio.env Studio.untrained "edge.jpg"
           default_tolerance Studio.fresh).
  reflexivity.
Defined.

Lemma tolerance_boundary_is_match_witness :
  exists r,
    recognize Studio.env Studio.trained "edge.jpg" default_tolerance Studio.fresh
      = (inr r, Studio.fresh) /\ In "carol" r.
Proof.
  destruct (tolerance_boundary_is_match Studio.env Studio.clf "face_model.pkl"
              "edge.jpg" default_tolerance Studio.fresh [3] 3 default_tolerance
              "carol" eq_refl (or_introl eq_refl) eq_refl eq_refl eq_refl)
    as (_ & _ & _ & Hresult).
  apply Hresult. repeat constructor.
  exists default_tolerance. split; [reflexivity|].
  intros _. exists "carol". reflexivity.
Defined.

Lemma recognize_no_duplicates_witness :
  recognize Studio.env Studio.trained "pair.jpg" default_tolerance Studio.fresh
    = (inr ["alice"], Studio.fresh) /\
  List.NoDup ["alice"] /\
  count_occ string_dec ["alice"] "alice" = 1.
Proof.
  split; [reflexivity|].
  destruct (recognize_no_duplicates Studio.env Studio.trained "pair.jpg"
              default_tolerance Studio.fresh ["alice"] Studio.fresh eq_refl)
    as (Hnd & _ & Htwice).
  split; [exact Hnd|].
  apply (Htwice [1; 7] "alice").
  - reflexivity.
  - reflexivity.
  - repeat constructor; exists Studio.half; (split; [reflexivity|]);
      intros _; exists "alice"; reflexivity.
  - exists 7. split; [simpl; auto|reflexivity].
Defined.

Lemma recognize_exception_yields_empty_witness :
  recognize Studio.env Studio.trained "crash.jpg" default_tolerance Studio.fresh =
    (inr [], mkWorld ∅ [] []
               [ErrorRecognizing "crash.jpg" (Exception "ValueError: kneighbors")]).
Proof.
  apply (recognize_exception_yields_empty Studio.env Studio.trained "crash.jpg"
           default_tolerance (Exception "ValueError: kneighbors") Studio.fresh).
  - reflexivity.
  - apply (raise_classify Studio.env _ _ _ _ [1; 5] [0; 1] [1] 5 []).
    + reflexivity.
    + reflexivity.
    + reflexivity.
    + repeat constructor. exists Studio.half. split; [reflexivity|].
      intros _. exists "alice". reflexivity.
    + left. reflexivity.
Defined.

Lemma recognize_first_occurrence_order_witness :
  0 < 1 <->
  first_face Studio.env (PyKNN Studio.clf) default_tolerance "bob" [2; 4; 1; 3; 7; 2]
    < first_face Studio.env (PyKNN Studio.clf) default_tolerance "alice"
        [2; 4; 1; 3; 7; 2].
Proof.
  apply (recognize_first_occurrence_order Studio.env Studio.trained "group.jpg"
           default_tolerance Studio.fresh ["bob"; "alice"; "carol"] Studio.fresh
           [2; 4; 1; 3; 7; 2] 0 1 "bob" "alice"); reflexivity.
Defined.

(** *** Batch processing and the command line *)

Section Batch.
Variable E : Env.

Local Abbreviation emb := (embedding E).

Implicit Types (w : World emb) (engine : Engine emb).

(** The value [recognize] returns does not depend on the model files
    or on what was printed before. *)
Lemma recognize_face_value engine tol x found w1 w2 :
  fst (recognize_face E engine tol x found w1) =
  fst (recognize_face E engine tol x found w2).
Proof.
  unfold recognize_face. run.
  destruct (model_kneighbors E (model engine) x) as [e|d]; simpl; [reflexivity|].
  destruct (SFleb d tol); [|reflexivity].
  destruct (model_predict E (model engine) x) as [e|name]; simpl; [reflexivity|].
  destruct (contains found name); reflexivity.
Qed.

Lemma faces_value engine tol encs found w1 w2 :
  fst (for_each encs (recognize_face E engine tol) found w1) =
  fst (for_each encs (recognize_face E engine tol) found w2).
Proof.
  revert found. induction encs as [|x encs IH]; intros found; simpl.
  - reflexivity.
  - unfold bind.
    pose proof (recognize_face_value engine tol x found w1 w2) as Hv.
    pose proof (recognize_face_world E engine tol x found w1) as H1.
    pose proof (recognize_face_world E engine tol x found w2) as H2.
    destruct (recognize_face E engine tol x found w1) as [r1 w1'].
    destruct (recognize_face E engine tol x found w2) as [r2 w2'].
    simpl in *. subst. destruct r2 as [e|found']; [reflexivity|apply IH].
Qed.

Lemma recognize_value engine image_path tol w1 w2 :
  fst (recognize E engine image_path tol w1) =
  fst (recognize E engine image_path tol w2).
Proof.
  unfold recognize. run.
  destruct (truth_value (model engine)) as [e|[|]]; simpl; try reflexivity.
  rewrite !recognize_body_eq.
  destruct (detected_faces E image_path) as [e|encs]; simpl; [reflexivity|].
  pose proof (faces_value engine tol encs [] w1 w2) as Hv.
  destruct (for_each encs _ [] w1) as [[e1|r1] w1'];
    destruct (for_each encs _ [] w2) as [[e2|r2] w2']; simpl in *;
    congruence.
Qed.

Lemma dict_set_fresh (k : string) (v : entry) (d : dict) :
  ~ In k (keys d) -> dict_set k v d = d ++ [(k, v)].
Proof.
  induction d as [|[k' v'] d IH]; simpl; [reflexivity|].
  intros Hk. destruct (String.eqb k k') eqn:Heq.
  - apply String.eqb_eq in Heq. subst. tauto.
  - rewrite IH by tauto. reflexivity.
Qed.

Lemma dict_get_map (g : string -> entry) (l : list string) (k : string) :
  In k l -> dict_get k (map (fun f => (f, g f)) l) = Some (g k).
Proof.
  induction l as [|f l IH]; simpl; [tauto|].
  intros Hk. destruct (String.eqb k f) eqn:Heq.
  - apply String.eqb_eq in Heq. subst. reflexivity.
  - apply IH. destruct Hk as [->|Hk]; [|exact Hk].
    rewrite String.eqb_refl in Heq. discriminate.
Qed.

Lemma dict_get_map_inv (g : string -> entry) (l : list string) (k : string) v :
  dict_get k (map (fun f => (f, g f)) l) = Some v -> In k l /\ v = g k.
Proof.
  induction l as [|f l IH]; simpl; [discriminate|].
  destruct (String.eqb k f) eqn:Heq.
  - apply String.eqb_eq in Heq. subst. intros [= <-]. auto.
  - intros H. destruct (IH H). auto.
Qed.

(** The entry stored for [filename], whatever the world it runs in. *)
Lemma process_file_entry engine directory_path filename results w0 w :
  is_image (join directory_path filename) = true ->
  exists w',
    process_file E engine directory_path filename results w =
      (inr (dict_set filename
              (entry_of (fst (recognize E engine (join directory_path filename)
                                default_tolerance w0))) results), w').
Proof.
  intros Himg. unfold process_file. rewrite Himg. run.
  rewrite (recognize_value engine _ default_tolerance w0 w).
  destruct (recognize E engine _ default_tolerance w) as [[e|people] w1];
    simpl; eexists; reflexivity.
Qed.

Lemma process_files engine directory_path w0 filenames :
  List.NoDup filenames ->
  forall results w,
    (forall f, In f filenames -> ~ In f (keys results)) ->
    exists w',
      for_each filenames (process_file E engine directory_path) results w =
        (inr (results ++
              map (fun f => (f, entry_of (fst (recognize E engine
                                  (join directory_path f) default_tolerance w0))))
                  (List.filter (fun f => is_image (join directory_path f)) filenames)),
         w').
Proof.
  intros Hnd. induction Hnd as [|f filenames Hf Hnd IH]; intros results w Hfresh; simpl.
  - exists w. rewrite app_nil_r. reflexivity.
  - unfold bind. destruct (is_image (join directory_path f)) eqn:Himg.
    + destruct (process_file_entry engine directory_path f results w0 w Himg)
        as (w1 & ->).
      rewrite dict_set_fresh by (apply Hfresh; simpl; auto).
      edestruct IH as (w' & ->).
      * intros g Hg. unfold keys. rewrite map_app, in_app_iff. simpl.
        intros [Hin|[->|[]]]; [|tauto].
        apply (Hfresh g); simpl; auto.
      * exists w'. simpl. rewrite <- app_assoc. reflexivity.
    + unfold process_file at 1. rewrite Himg. simpl.
      apply IH. intros g Hg. apply Hfresh. simpl. auto.
Qed.

(** C1 (amended): for a directory whose listing succeeds,
    [process_directory] returns one entry per listed name with an image
    extension, in listing order, none left out.  The entry is what
    [recognize] returns for that file with the default tolerance; for
    an unreadable image and a loaded classifier that is the empty
    list, since [recognize] catches the exception itself.  An
    [{"error": message}] entry is stored exactly when the call to
    [recognize] raises, that is when the truth test of the model
    object raises. *)
Theorem process_directory_entries engine directory_path filenames json_output w :
  listdir E directory_path = inr filenames ->
  List.NoDup filenames ->
  let results :=
    map (fun f => (f, entry_of (fst (recognize E engine (join directory_path f)
                                        default_tolerance w))))
        (List.filter (fun f => is_image (join directory_path f)) filenames) in
  (exists w',
     process_directory E engine directory_path json_output w =
       (inr (if json_output then JsonText results else Native results), w')) /\
  (forall c f e,
     model engine = PyKNN c ->
     In f filenames ->
     is_image (join directory_path f) = true ->
     load_image_file E (join directory_path f) = inl e ->
     dict_get f results = Some (Labels [])) /\
  (forall f e,
     In f filenames ->
     is_image (join directory_path f) = true ->
     truth_value (model engine) = inl e ->
     dict_get f results = Some (ErrorEntry (str e))) /\
  (forall f message,
     dict_get f results = Some (ErrorEntry message) ->
     exists e, truth_value (model engine) = inl e /\ str e = message).
Proof.
  intros Hls Hnd results. split; [|split; [|split]].
  - unfold process_directory. unfold bind at 1, call at 1. rewrite Hls.
    destruct (process_files engine directory_path w filenames Hnd [] w)
      as (w' & Hrun); [intros f _ []|].
    unfold bind. rewrite Hrun. simpl. exists w'.
    destruct json_output; reflexivity.
  - intros c f e Hm Hin Himg Hload. unfold results.
    rewrite dict_get_map by (apply filter_In; auto).
    rewrite (recognize_raises_in_try E engine _ _ e).
    + reflexivity.
    + rewrite Hm. reflexivity.
    + apply raise_decode. exact Hload.
  - intros f e Hin Himg Ht. unfold results.
    rewrite dict_get_map by (apply filter_In; auto).
    unfold recognize. run. rewrite Ht. reflexivity.
  - intros f message Hget. unfold results in Hget.
    apply dict_get_map_inv in Hget as [_ Hentry].
    unfold recognize in Hentry. revert Hentry. run.
    destruct (truth_value (model engine)) as [e|[|]]; simpl.
    + intros [= Hmsg]. eauto.
    + destruct (recognize_body E engine _ default_tolerance w) as [[e|r] w1];
        simpl; discriminate.
    + discriminate.
Qed.

(** The tolerance on the command line has no effect on a run that
    dispatches to [process_directory]. *)
Lemma main_batch_tolerance args tol w :
  given (arg_train args) = None ->
  given (arg_recognize args) = None ->
  main E args w =
  main E (mkArgs (arg_train args) (arg_recognize args) (arg_process_dir args)
            (arg_model args) tol) w.
Proof.
  intros Ht Hr. unfold main. simpl. rewrite Ht, Hr. reflexivity.
Qed.

End Batch.

Lemma process_directory_entries_witness :
  exists world,
    process_directory Studio.env Studio.trained "photos" false Studio.fresh =
      (inr (Native [("a.jpg", Labels ["alice"]); ("bad.jpg", Labels []);
                    ("b.png", Labels ["bob"])]), world).
Proof.
  apply (process_directory_entries Studio.env Studio.trained "photos"
           ["a.jpg"; "bad.jpg"; "readme.md"; "b.png"] false Studio.fresh).
  - reflexivity.
  - repeat constructor; simpl; intuition discriminate.
Defined.

(** C1 as stated fails: with two valid images and one that cannot be
    decoded, the batch holds three label entries and no error entry;
    the corrupt file's entry is the empty list. *)
Lemma corrupt_image_gets_empty_list :
  load_image_file Studio.env (join "photos" "bad.jpg")
    = inl (Exception "cannot identify image file") /\
  fst (process_directory Studio.env Studio.trained "photos" false Studio.fresh)
    = inr (Native [("a.jpg", Labels ["alice"]); ("bad.jpg", Labels []);
                   ("b.png", Labels ["bob"])]) /\
  dict_get "bad.jpg" [("a.jpg", Labels ["alice"]); ("bad.jpg", Labels []);
                      ("b.png", Labels ["bob"])]
    <> Some (ErrorEntry "cannot identify image file").
Proof.
  split; [reflexivity|]. split; [reflexivity|]. discriminate.
Qed.

(** C2: run with [--process-dir album --tolerance 0.3] on a model file
    holding a classifier, where the one face of [album/a.jpg] lies at
    distance 0.5.  The batch reports the face as matched, as under the
    default 0.6, while recognition of that file with the tolerance of
    the command line matches nothing. *)
Theorem batch_ignores_tolerance_flag :
  let args := mkArgs None None (Some "album") "face_model.pkl" Studio.three_tenths in
  stdout (snd (main Studio.env args Studio.with_model))
    = [PrintBatch (JsonText [("a.jpg", Labels ["alice"])])] /\
  fst (recognize Studio.env Studio.trained (join "album" "a.jpg")
         (arg_tolerance args) Studio.with_model) = inr [] /\
  fst (recognize Studio.env Studio.trained (join "album" "a.jpg")
         default_tolerance Studio.with_model) = inr ["alice"].
Proof.
  repeat split; vm_compute; reflexivity.
Qed.

(** ** Further properties *)

(** *** Paths and extensions *)

Lemma append_cons (c : ascii) (s1 s2 : string) :
  (String c s1 ++ s2)%string = String c (s1 ++ s2).
Proof. reflexivity. Qed.

Lemma append_nil_l (s : string) : ("" ++ s)%string = s.
Proof. reflexivity. Qed.

Ltac norm_append := rewrite ?append_cons, ?append_nil_l in *.

Lemma length_append (s1 s2 : string) :
  String.length (s1 ++ s2) = String.length s1 + String.length s2.
Proof.
  induction s1 as [|c s1 IH]; norm_append; simpl; [reflexivity|].
  rewrite IH. reflexivity.
Qed.

Lemma append_assoc (s1 s2 s3 : string) : ((s1 ++ s2) ++ s3 = s1 ++ (s2 ++ s3))%string.
Proof.
  induction s1 as [|c s1 IH]; norm_append; [reflexivity|].
  rewrite IH. reflexivity.
Qed.

Lemma substring_all (s : string) : substring 0 (String.length s) s = s.
Proof. induction s as [|c s IH]; simpl; [reflexivity|]. rewrite IH. reflexivity. Qed.

Lemma substring_append_r (pre suf : string) :
  substring (String.length pre) (String.length suf) (pre ++ suf) = suf.
Proof.
  induction pre as [|c pre IH]; norm_append; simpl; [apply substring_all|exact IH].
Qed.

Lemma substring_split (s : string) (k : nat) :
  k <= String.length s ->
  exists pre, s = (pre ++ substring k (String.length s - k) s)%string.
Proof.
  revert k. induction s as [|c s IH]; intros k Hk.
  - exists "". destruct k; reflexivity.
  - destruct k as [|k].
    + exists "". rewrite Nat.sub_0_r, substring_all. reflexivity.
    + simpl in Hk. destruct (IH k) as (pre & Hpre); [lia|].
      exists (String c pre). rewrite append_cons. simpl. rewrite <- Hpre. reflexivity.
Qed.

(** [s.endswith(suffix)] holds exactly when [s] is some string followed
    by [suffix]. *)
Lemma endswith_spec (s suffix : string) :
  endswith s suffix = true <-> exists pre, s = (pre ++ suffix)%string.
Proof.
  unfold endswith. rewrite andb_true_iff, Nat.leb_le, String.eqb_eq. split.
  - intros [Hle Hsub].
    destruct (substring_split s (String.length s - String.length suffix)) as (pre & Hpre);
      [lia|].
    exists pre.
    replace (String.length s - (String.length s - String.length suffix))
      with (String.length suffix) in Hpre by lia.
    rewrite Hsub in Hpre. exact Hpre.
  - intros (pre & ->). rewrite length_append. split; [lia|].
    replace (String.length pre + String.length suffix - String.length suffix)
      with (String.length pre) by lia.
    apply substring_append_r.
Qed.

Lemma has_char_append (c : ascii) (s1 s2 : string) :
  has_char c (s1 ++ s2) = has_char c s1 || has_char c s2.
Proof.
  induction s1 as [|c' s1 IH]; norm_append; simpl; [reflexivity|].
  rewrite IH, orb_assoc. reflexivity.
Qed.

(** A suffix without the separator lies within the last component. *)
Lemma endswith_after_separator (a b suffix : string) :
  has_char "/" suffix = false ->
  endswith (a ++ "/" ++ b) suffix = endswith b suffix.
Proof.
  intros Hno. apply eq_true_iff_eq. rewrite !endswith_spec. split.
  - intros (pre & Heq). revert pre Heq.
    assert (Hgen : forall a' pre, (a' ++ "/" ++ b = pre ++ suffix)%string ->
                                  exists pre', b = (pre' ++ suffix)%string).
    { induction a' as [|c a' IH]; intros pre Heq.
      - destruct pre as [|c' pre]; norm_append.
        + rewrite <- Heq in Hno. simpl in Hno. discriminate.
        + injection Heq as _ Hb. eauto.
      - destruct pre as [|c' pre]; norm_append.
        + rewrite <- Heq in Hno. simpl in Hno.
          rewrite has_char_append in Hno. norm_append. simpl in Hno.
          rewrite !orb_true_r in Hno. discriminate.
        + injection Heq as _ Heq. eauto. }
    intros pre Heq. eapply Hgen, Heq.
  - intros (pre & ->). exists (a ++ "/" ++ pre)%string.
    rewrite !append_assoc. reflexivity.
Qed.

Lemma lower_append (s1 s2 : string) : lower (s1 ++ s2) = (lower s1 ++ lower s2)%string.
Proof.
  induction s1 as [|c s1 IH]; norm_append; simpl; norm_append; [reflexivity|].
  rewrite IH. reflexivity.
Qed.

(** [os.path.join(a, b)] is [b] or ends with a separator and [b]. *)
Lemma join_cases (a b : string) :
  join a b = b \/ exists a', join a b = (a' ++ "/" ++ b)%string.
Proof.
  unfold join. destruct (startswith b "/"); [now left|].
  destruct (String.eqb a "") eqn:Hempty; simpl.
  - apply String.eqb_eq in Hempty. subst. now left.
  - destruct (endswith a "/") eqn:Hsep.
    + apply endswith_spec in Hsep as (a' & ->). right. exists a'.
      rewrite append_assoc. reflexivity.
    + right. exists a. reflexivity.
Qed.

(** X1: whether a joined path passes the extension test depends only
    on the file name, not on the directory it is joined to. *)
Theorem is_image_join (directory filename : string) :
  is_image (join directory filename) = is_image filename.
Proof.
  destruct (join_cases directory filename) as [->|(a & ->)]; [reflexivity|].
  unfold is_image. rewrite !lower_append. simpl (lower "/").
  rewrite !endswith_after_separator by reflexivity. reflexivity.
Qed.

(** *** Floats *)

Lemma SFleb_trans (a b c : float) :
  SFleb a b = true -> SFleb b c = true -> SFleb a c = true.
Proof.
  unfold SFleb.
  destruct a as [sa|sa| |sa ma ea], b as [sb|sb| |sb mb eb], c as [sc|sc| |sc mc ec];
    simpl; try discriminate; try reflexivity;
    try (destruct sa; try discriminate; try reflexivity);
    try (destruct sb; try discriminate; try reflexivity);
    try (destruct sc; try discriminate; try reflexivity).
  all: destruct (Z.compare_spec ea eb), (Z.compare_spec eb ec), (Z.compare_spec ea ec);
    try discriminate; try reflexivity; try lia; subst.
  all: rewrite ?Pos.compare_cont_spec; simpl;
    destruct (Pos.compare_spec ma mb), (Pos.compare_spec mb mc), (Pos.compare_spec ma mc);
    simpl; try discriminate; try reflexivity; try lia.
Qed.

(** *** The classifier store *)

Section StoreRoundTrip.
Variable E : Env.

Local Abbreviation emb := (embedding E).

Implicit Types (w : World emb) (self other : Engine emb).

(** X2: what a [save_model] that returns has written, [load_model]
    reads back: loading into any engine with the same [model_path]
    returns [True] and sets its model to the saved one, printing
    nothing.  ([save_model] raises, and this says nothing, when the
    path cannot be opened for writing.) *)
Theorem save_then_load self other w w1 :
  save_model E self w = (inr tt, w1) ->
  model_path other = model_path self ->
  exists w',
    load_model E other w1 = (inr (true, set_model other (model self)), w') /\
    files w' = <[model_path self := Pickled (model self)]> (files w) /\
    stdout w' = stdout w /\ stderr w' = stderr w.
Proof.
  unfold save_model, pickle_dump.
  destruct (open_wb E (model_path self)) as [e|[]]; [discriminate|].
  intros [= <-] Hpath.
  unfold load_model, path_exists, pickle_load. run.
  rewrite Hpath, lookup_insert_eq.
  rewrite bool_decide_eq_true_2 by eauto. simpl.
  rewrite lookup_insert_eq. simpl. eexists. repeat split.
Qed.

(** X3: [load_model] never raises and returns [True] exactly when the
    file at [model_path] exists and unpickles, in which case the model
    is the unpickled value; when it returns [False] the engine is as it
    was.  The model files are never modified. *)
Theorem load_model_reports self w :
  exists ok self' w',
    load_model E self w = (inr (ok, self'), w') /\
    (ok = true <-> exists v, files w !! model_path self = Some (Pickled v)) /\
    (ok = false -> self' = self) /\
    (forall v, files w !! model_path self = Some (Pickled v) -> model self' = v) /\
    files w' = files w.
Proof.
  unfold load_model, path_exists, pickle_load. run.
  destruct self as [path m0]; simpl.
  destruct (files w !! path) as [[v|e]|] eqn:Hf; simpl; rewrite ?Hf; simpl.
  - exists true. do 2 eexists. split; [reflexivity|]. simpl.
    repeat split; eauto; try discriminate. intros v' [= <-]. reflexivity.
  - exists false. do 2 eexists. split; [reflexivity|]. simpl.
    repeat split; try discriminate. intros (v & Hv). discriminate.
  - exists false. do 2 eexists. split; [reflexivity|]. simpl.
    repeat split; try discriminate. intros (v & Hv). discriminate.
Qed.

End StoreRoundTrip.

Lemma save_then_load_witness :
  exists world,
    load_model Studio.env Studio.untrained
      (snd (save_model Studio.env Studio.trained Studio.with_garbage)) =
      (inr (true, Studio.trained), world).
Proof.
  destruct (save_then_load Studio.env Studio.trained Studio.untrained
              Studio.with_garbage
              (snd (save_model Studio.env Studio.trained Studio.with_garbage))
              eq_refl eq_refl) as (world & Hload & _).
  exists world. exact Hload.
Defined.

(** *** Training on an arbitrary tree *)

Section TrainingSamples.
Variable E : Env.

Local Arguments Nat.min : simpl never.

Local Abbreviation emb := (embedding E).

Implicit Types (w : World emb) (self : Engine emb).

Lemma train_image_step person_name person_dir image_file xs ns w :
  exists w',
    train_image E person_name person_dir image_file (xs, ns) w =
      (inr (match first_encoding E (join person_dir image_file) with
            | Some x => (xs ++ [x], ns ++ [person_name])
            | None => (xs, ns)
            end), w') /\
    same_files w w' /\
    (is_image (join person_dir image_file) = false -> w' = w) /\
    (forall x, first_encoding E (join person_dir image_file) = Some x ->
       if stdout_encodes E (processed_text (join person_dir image_file) person_name)
       then stdout w' = stdout w ++
              [ProcessedFace (join person_dir image_file) person_name] /\
            stderr w' = stderr w
       else stdout w' = stdout w /\
            stderr w' = stderr w ++
              [ErrorProcessing (join person_dir image_file)
                 (Exception "UnicodeEncodeError")]) /\
    (is_image (join person_dir image_file) = true ->
     first_encoding E (join person_dir image_file) = None ->
     stdout w' = stdout w /\ exists msg, stderr w' = stderr w ++ [msg]).
Proof.
  unfold train_image, first_encoding, same_files.
  destruct (is_image (join person_dir image_file)); simpl.
  - run. destruct (load_image_file E _) as [e|img]; simpl.
    + eexists. split; [reflexivity|]. simpl. repeat split; try discriminate; eauto.
    + destruct (face_encodings E img None) as [e|[|x rest]]; simpl.
      * eexists. split; [reflexivity|]. simpl.
        repeat split; try discriminate; eauto.
      * eexists. split; [reflexivity|]. simpl.
        repeat split; try discriminate; eauto.
      * unfold print_processed.
        destruct (stdout_encodes E _); run;
          (eexists; split; [reflexivity|]); simpl;
          repeat split; try discriminate; auto.
  - exists w. repeat split; try discriminate.
Qed.

(** X4: the iteration of [train] for one file never raises.  It adds
    one sample, the first embedding found with the directory name as
    label, when the file has an image extension, decodes and holds a
    face; it then prints one line on [stdout], or, when [stdout]
    cannot encode that line, keeps the sample and prints one line on
    [stderr] instead.  Otherwise the samples are unchanged, with one
    line on [stderr] unless the extension test failed.  No model file
    is touched. *)
Theorem train_image_outcome person_name person_dir image_file xs ns w :
  exists w',
    train_image E person_name person_dir image_file (xs, ns) w =
      (inr (match first_encoding E (join person_dir image_file) with
            | Some x => (xs ++ [x], ns ++ [person_name])
            | None => (xs, ns)
            end), w') /\
    files w' = files w /\ fs_log w' = fs_log w /\
    (is_image (join person_dir image_file) = false -> w' = w) /\
    (forall x, first_encoding E (join person_dir image_file) = Some x ->
       if stdout_encodes E (processed_text (join person_dir image_file) person_name)
       then stdout w' = stdout w ++
              [ProcessedFace (join person_dir image_file) person_name] /\
            stderr w' = stderr w
       else stdout w' = stdout w /\
            stderr w' = stderr w ++
              [ErrorProcessing (join person_dir image_file)
                 (Exception "UnicodeEncodeError")]) /\
    (is_image (join person_dir image_file) = true ->
     first_encoding E (join person_dir image_file) = None ->
     stdout w' = stdout w /\ exists msg, stderr w' = stderr w ++ [msg]).
Proof.
  destruct (train_image_step person_name person_dir image_file xs ns w)
    as (w' & Hrun & [Hf Hl] & Hrest).
  exists w'. auto.
Qed.

Lemma for_each_cons {W A S} (x : A) (xs : list A) (body : A -> S -> @M W S)
    (s : S) (st : W) :
  for_each (x :: xs) body s st =
    match body x s st with
    | (inr s', st') => for_each xs body s' st'
    | (inl e, st') => (inl e, st')
    end.
Proof. reflexivity. Qed.

Lemma same_files_trans {T} (w1 w2 w3 : World T) :
  same_files w1 w2 -> same_files w2 w3 -> same_files w1 w3.
Proof. unfold same_files. intros [-> ->] [-> ->]. auto. Qed.

Lemma train_images_samples person_name person_dir image_files xs ns w :
  exists w',
    for_each image_files (train_image E person_name person_dir) (xs, ns) w =
      (inr (xs ++ map fst (person_samples E person_dir person_name image_files),
            ns ++ map snd (person_samples E person_dir person_name image_files)),
       w') /\
    same_files w w'.
Proof.
  revert xs ns w. induction image_files as [|f image_files IH]; intros xs ns w.
  - exists w. simpl. rewrite !app_nil_r. repeat split.
  - destruct (train_image_step person_name person_dir f xs ns w)
      as (w1 & Hrun & Hsame & _).
    rewrite for_each_cons, Hrun.
    unfold person_samples. simpl.
    destruct (first_encoding E (join person_dir f)) as [x|].
    + destruct (IH (xs ++ [x]) (ns ++ [person_name]) w1) as (w' & Hrest & Hsame').
      exists w'. rewrite Hrest. unfold person_samples. simpl.
      rewrite <- !app_assoc. split; [reflexivity|].
      eapply same_files_trans; eauto.
    + destruct (IH xs ns w1) as (w' & Hrest & Hsame').
      exists w'. rewrite Hrest. split; [reflexivity|].
      eapply same_files_trans; eauto.
Qed.

Lemma train_people_samples training_dir entries :
  (forall p, In p entries -> isdir E (join training_dir p) = true ->
             exists l, listdir E (join training_dir p) = inr l) ->
  forall xs ns w, exists w',
    for_each entries (train_person E training_dir) (xs, ns) w =
      (inr (xs ++ map fst (training_samples E training_dir entries),
            ns ++ map snd (training_samples E training_dir entries)), w') /\
    same_files w w'.
Proof.
  induction entries as [|p entries IH]; intros Hls xs ns w.
  - exists w. simpl. rewrite !app_nil_r. repeat split.
  - rewrite for_each_cons. unfold train_person at 1. simpl training_samples.
    destruct (isdir E (join training_dir p)) eqn:Hdir.
    + destruct (Hls p (or_introl eq_refl) Hdir) as (l & Hl).
      change (negb true) with false. cbv iota.
      unfold bind at 1, call at 1. rewrite Hl.
      destruct (train_images_samples p (join training_dir p) l xs ns w)
        as (w1 & -> & Hsame).
      edestruct IH as (w' & -> & Hsame');
        [intros q Hq; apply Hls; right; exact Hq|].
      exists w'. rewrite !map_app, !app_assoc. split; [reflexivity|].
      eapply same_files_trans; eauto.
    + change (negb false) with true. cbv iota. unfold ret at 1.
      edestruct IH as (w' & -> & Hsame');
        [intros q Hq; apply Hls; right; exact Hq|].
      exists w'. split; [reflexivity|exact Hsame'].
Qed.

(** X5: when the training directory and its person directories can be
    listed, [train] uses exactly the samples of the tree, in listing
    order: for every file with an image extension that decodes and
    holds a face, its first embedding, labelled with the name of its
    directory.  With at least one sample, and a [model_path] that can
    be opened for writing, it returns their number and fits and writes
    a classifier over them with [min(5, number)] neighbours; with none
    it returns 0 and keeps engine and files. *)
Theorem train_uses_samples self training_dir entries w :
  listdir E training_dir = inr entries ->
  (forall p, In p entries -> isdir E (join training_dir p) = true ->
             exists l, listdir E (join training_dir p) = inr l) ->
  (training_samples E training_dir entries <> [] ->
   open_wb E (model_path self) = inr tt) ->
  let samples := training_samples E training_dir entries in
  let clf := mkKNN (Nat.min 5 (length samples)) (map fst samples) (map snd samples) in
  exists w',
    train E self training_dir w =
      (inr (length samples,
            if (0 <? length samples)%nat then set_model self (PyKNN clf) else self),
       w') /\
    files w' =
      (if (0 <? length samples)%nat
       then <[model_path self := Pickled (PyKNN clf)]> (files w)
       else files w).
Proof.
  intros Hls Hsub Hopen samples clf.
  destruct (train_people_samples training_dir entries Hsub [] [] w)
    as (w1 & Hloop & Hf & Hl).
  unfold train, collect. unfold bind at 1. unfold bind at 1, call at 1.
  rewrite Hls, Hloop. simpl. fold samples.
  rewrite length_map.
  destruct (0 <? length samples)%nat eqn:Hpos.
  - assert (Hsome : samples <> []).
    { apply Nat.ltb_lt in Hpos. intros Hnil. rewrite Hnil in Hpos. simpl in Hpos. lia. }
    unfold save_model, pickle_dump, new_classifier, fit.
    cbn [model_path model set_model]. rewrite (Hopen Hsome). run.
    eexists. split; [reflexivity|]. simpl.
    rewrite Hf. reflexivity.
  - run. apply Nat.ltb_ge in Hpos.
    assert (Hzero : length samples = 0) by lia. rewrite Hzero.
    eexists. split; [reflexivity|]. simpl. exact Hf.
Qed.

(** X6: a person directory that cannot be listed aborts the whole
    training run with that exception, even after earlier directories
    went through: nothing is fitted and no file is written. *)
Theorem train_aborts_on_unreadable_directory self training_dir before p after e w :
  listdir E training_dir = inr (before ++ p :: after) ->
  (forall q, In q before -> isdir E (join training_dir q) = true ->
             exists l, listdir E (join training_dir q) = inr l) ->
  isdir E (join training_dir p) = true ->
  listdir E (join training_dir p) = inl e ->
  exists w',
    train E self training_dir w = (inl e, w') /\
    files w' = files w /\ fs_log w' = fs_log w.
Proof.
  intros Hls Hbefore Hdir Hfail.
  destruct (train_people_samples training_dir before Hbefore [] [] w)
    as (w1 & Hloop & Hf & Hl).
  unfold train, collect. unfold bind at 1. unfold bind at 1, call at 1.
  rewrite Hls, for_each_app. unfold bind at 1. rewrite Hloop.
  rewrite for_each_cons. unfold train_person at 1. rewrite Hdir.
  change (negb true) with false. cbv iota.
  unfold bind at 1, call at 1. rewrite Hfail.
  exists w1. auto.
Qed.

End TrainingSamples.

Lemma train_uses_samples_witness :
  exists world,
    train Lockers.env Studio.trained "open" Studio.fresh =
      (inr (1, mkEngine "face_model.pkl" (PyKNN (mkKNN 1 [1] ["alice"]))), world).
Proof.
  destruct (train_uses_samples Lockers.env Studio.trained "open" ["alice"]
              Studio.fresh eq_refl) as (world & Hrun & _).
  - intros p [<-|[]] _. exists ["duo.jpg"; "blurred.png"; "gone.jpg"]. reflexivity.
  - intros _. reflexivity.
  - exists world. exact Hrun.
Defined.

Lemma train_aborts_on_unreadable_directory_witness :
  exists world,
    train Lockers.env Studio.trained "vault" Studio.fresh
      = (inl (Exception "PermissionError"), world) /\
    files world = ∅.
Proof.
  destruct (train_aborts_on_unreadable_directory Lockers.env Studio.trained "vault"
              ["alice"] "locked" ["bob"] (Exception "PermissionError") Studio.fresh
              eq_refl) as (world & Hrun & Hfiles & _).
  - intros q [<-|[]] _. exists ["duo.jpg"; "blurred.png"]. reflexivity.
  - reflexivity.
  - reflexivity.
  - exists world. split; [exact Hrun|exact Hfiles].
Defined.

(** *** What a completed training run leaves behind *)

Section TrainingOutcome.
Variable E : Env.

Local Abbreviation emb := (embedding E).

Implicit Types (w : World emb) (self : Engine emb).

Local Arguments Nat.min : simpl never.

Lemma for_each_inv {W A S} (P : S -> Prop) (l : list A) (body : A -> S -> @M W S)
    (s r : S) (st st' : W) :
  (forall x s0 st0 s1 st1, In x l -> P s0 -> body x s0 st0 = (inr s1, st1) -> P s1) ->
  P s -> for_each l body s st = (inr r, st') -> P r.
Proof.
  revert s st. induction l as [|x l IH]; intros s st Hbody Hs Hrun.
  - injection Hrun as <- _. exact Hs.
  - rewrite for_each_cons in Hrun.
    destruct (body x s st) as [[e|s1] st1] eqn:Hx; [discriminate|].
    apply (IH s1 st1); [|eapply Hbody; eauto; now left|exact Hrun].
    intros y s0 st0 s2 st2 Hy. apply Hbody. now right.
Qed.

Lemma train_person_paired training_dir entries person acc w acc' w' :
  In person entries ->
  paired E training_dir entries acc ->
  train_person E training_dir person acc w = (inr acc', w') ->
  paired E training_dir entries acc'.
Proof.
  intros Hin Hacc. unfold train_person.
  destruct (isdir E (join training_dir person)) eqn:Hdir.
  - change (negb true) with false. cbv iota. unfold bind at 1, call at 1.
    destruct (listdir E (join training_dir person)) as [e|image_files];
      [discriminate|].
    apply for_each_inv; [|exact Hacc].
    intros f [xs ns] st0 s1 st1 _ [Hlen Hlab] Hstep.
    destruct (train_image_step E person (join training_dir person) f xs ns st0)
      as (st & Hrun & _).
    rewrite Hrun in Hstep. injection Hstep as <- _.
    destruct (first_encoding E _); [|split; assumption].
    unfold paired. simpl in *. split.
    + rewrite !length_app. simpl. lia.
    + intros n Hn. apply in_app_or in Hn as [Hn|[<-|[]]]; auto.
  - change (negb false) with true. cbv iota. intros [= <- _]. exact Hacc.
Qed.

Lemma train_inr self training_dir w count self' w' :
  train E self training_dir w = (inr (count, self'), w') ->
  exists xs ns w1,
    collect E training_dir w = (inr (xs, ns), w1) /\
    ((count = 0 /\ self' = self) \/
     (count <> 0 /\ count = length xs /\
      self' = set_model self (PyKNN (mkKNN (Nat.min 5 (length xs)) xs ns)) /\
      w' = mkWorld (<[model_path self := Pickled (model self')]> (files w1))
             (fs_log w1 ++ [OpenWrite (model_path self)]) (stdout w1) (stderr w1))).
Proof.
  unfold train. unfold bind at 1.
  destruct (collect E training_dir w) as [[e|[xs ns]] w1]; [discriminate|].
  exists xs, ns, w1. split; [reflexivity|].
  destruct (0 <? length xs)%nat eqn:Hpos.
  - revert H. unfold save_model, pickle_dump, new_classifier, fit.
    cbn [model_path model set_model].
    destruct (open_wb E (model_path self)) as [e|[]]; run; [discriminate|].
    intros [= <- <- <-]. right. apply Nat.ltb_lt in Hpos.
    repeat split. lia.
  - revert H. run. intros [= <- <- _]. now left.
Qed.

Lemma collect_paired training_dir w xs ns w1 :
  collect E training_dir w = (inr (xs, ns), w1) ->
  exists entries,
    listdir E training_dir = inr entries /\ paired E training_dir entries (xs, ns).
Proof.
  unfold collect. unfold bind at 1, call at 1.
  destruct (listdir E training_dir) as [e|entries]; [discriminate|].
  intros Hloop. exists entries. split; [reflexivity|].
  apply (for_each_inv (paired E training_dir entries) entries
           (train_person E training_dir) ([], []) (xs, ns) w w1);
    [|split; [reflexivity|intros n []]|exact Hloop].
  intros p acc st0 acc1 st1 Hp Hacc. apply train_person_paired; assumption.
Qed.

(** X7: whenever [train] returns a count other than 0, the engine
    holds a classifier fitted on that many samples and as many labels,
    with between 1 and 5 neighbours and never more than samples; every
    label is the name of a subdirectory of the training directory; and
    that classifier is what the file at [model_path] now holds, written
    once. *)
Theorem train_postcondition self training_dir w count self' w' :
  train E self training_dir w = (inr (count, self'), w') ->
  count <> 0 ->
  exists c,
    self' = set_model self (PyKNN c) /\
    length (fit_X c) = count /\ length (fit_y c) = count /\
    1 <= n_neighbors c <= 5 /\ n_neighbors c <= count /\
    (exists entries,
       listdir E training_dir = inr entries /\
       forall n, In n (fit_y c) ->
                 In n entries /\ isdir E (join training_dir n) = true) /\
    files w' !! model_path self = Some (Pickled (PyKNN c)) /\
    fs_log w' = fs_log w ++ [OpenWrite (model_path self)].
Proof.
  intros Hrun Hcount.
  destruct (train_inr _ _ _ _ _ _ Hrun)
    as (xs & ns & w1 & Hc & [[Hzero _]|(_ & Hlen & -> & ->)]); [contradiction|].
  destruct (collect_paired _ _ _ _ _ Hc) as (entries & Hls & Hpair & Hlab).
  pose proof (collect_frame E training_dir w) as [_ Hlog].
  rewrite Hc in Hlog. simpl in *.
  exists (mkKNN (Nat.min 5 (length xs)) xs ns). simpl.
  repeat split; try lia; eauto.
  - apply lookup_insert_eq.
  - rewrite Hlog. reflexivity.
Qed.

(** X8: a training run that returns a count other than 0 and a later
    construction of an engine on the same [model_path] agree: the new
    engine is the trained one. *)
Theorem train_then_init self training_dir w count self' w1 :
  train E self training_dir w = (inr (count, self'), w1) ->
  count <> 0 ->
  exists w2, init E (model_path self) w1 = (inr self', w2).
Proof.
  intros Hrun Hcount.
  destruct (train_inr _ _ _ _ _ _ Hrun)
    as (xs & ns & w0 & _ & [[Hzero _]|(_ & _ & -> & ->)]); [contradiction|].
  unfold init.
  destruct (load_model_total E (mkEngine (model_path self) PyNone)
              (mkWorld (<[model_path self :=
                           Pickled (model (set_model self
                             (PyKNN (mkKNN (Nat.min 5 (length xs)) xs ns))))]> (files w0))
                 (fs_log w0 ++ [OpenWrite (model_path self)]) (stdout w0) (stderr w0)))
    as (ok & m & w2 & Hload & _ & _ & _ & Hm).
  simpl in Hm, Hload. rewrite lookup_insert_eq in Hm. destruct Hm as [-> _].
  unfold bind. simpl. rewrite Hload. simpl. exists w2. reflexivity.
Qed.

End TrainingOutcome.

Lemma train_postcondition_witness :
  exists c, mkEngine "face_model.pkl" (PyKNN (mkKNN 2 [1; 2] ["alice"; "bob"]))
            = @set_model Studio.env Studio.untrained (PyKNN c) /\
            n_neighbors c <= 2.
Proof.
  destruct (train_postcondition Studio.env Studio.untrained "train" Studio.fresh 2
              (mkEngine "face_model.pkl" (PyKNN (mkKNN 2 [1; 2] ["alice"; "bob"])))
              (snd (train Studio.env Studio.untrained "train" Studio.fresh)))
    as (c & Hself & _ & _ & _ & Hk & _).
  - reflexivity.
  - discriminate.
  - exists c. split; [exact Hself|exact Hk].
Defined.

Lemma train_then_init_witness :
  exists world,
    init Studio.env "face_model.pkl"
      (snd (train Studio.env Studio.untrained "train" Studio.fresh))
    = (inr (mkEngine "face_model.pkl" (PyKNN (mkKNN 2 [1; 2] ["alice"; "bob"]))),
       world).
Proof.
  apply (train_then_init Studio.env Studio.untrained "train" Studio.fresh 2).
  - reflexivity.
  - discriminate.
Defined.

(** *** What recognition reports and what it leaves alone *)

Section RecognitionOutcome.
Variable E : Env.

Local Abbreviation emb := (embedding E).

Implicit Types (w : World emb) (self : Engine emb) (m : pyval emb).

Lemma face_label_Some m tol x name :
  face_label E m tol x = Some name <->
  exists d, model_kneighbors E m x = inr d /\ SFleb d tol = true /\
            model_predict E m x = inr name.
Proof.
  unfold face_label. split.
  - destruct (model_kneighbors E m x) as [e|d]; [discriminate|].
    destruct (SFleb d tol) eqn:Hle; [|discriminate].
    destruct (model_predict E m x) as [e|n]; [discriminate|].
    intros [= <-]. eauto.
  - intros (d & -> & -> & ->). reflexivity.
Qed.

Lemma found_after_length m tol encs found :
  length (found_after E m tol found encs) <= length found + length encs.
Proof.
  revert found. induction encs as [|x encs IH]; intros found; simpl.
  - lia.
  - specialize (IH (add_face E m tol found x)).
    destruct (add_face_cases E m tol found x) as [Heq|(n & _ & _ & Heq)];
      rewrite Heq in *; [lia|].
    rewrite length_app in IH. simpl in IH. lia.
Qed.

(** X9: every label [recognize] returns was predicted for a detected
    face whose nearest distance is within the tolerance; a face
    farther away contributes nothing. *)
Theorem recognize_sound self image_path tol w r w' name :
  recognize E self image_path tol w = (inr r, w') ->
  In name r ->
  exists encs x d,
    detected_faces E image_path = inr encs /\ In x encs /\
    model_kneighbors E (model self) x = inr d /\
    SFleb d tol = true /\
    model_predict E (model self) x = inr name.
Proof.
  intros Hrun Hin.
  destruct (recognize_inr E _ _ _ _ _ _ Hrun) as [->|(encs & Hd & ->)]; [destruct Hin|].
  apply found_after_In in Hin as [[]|(x & Hx & Hlabel)].
  apply face_label_Some in Hlabel as (d & Hk & Hle & Hp).
  exists encs, x, d. auto.
Qed.

(** X10: [recognize] never touches the model files or [stdout] and
    opens no file of the store; it prints at most one line on [stderr],
    and none when it returns a label. *)
Theorem recognize_frame self image_path tol w :
  let run := recognize E self image_path tol w in
  files (snd run) = files w /\
  fs_log (snd run) = fs_log w /\
  stdout (snd run) = stdout w /\
  (stderr (snd run) = stderr w \/ exists msg, stderr (snd run) = stderr w ++ [msg]) /\
  (forall r, fst run = inr r -> r <> [] -> snd run = w).
Proof.
  unfold recognize. run.
  destruct (truth_value (model self)) as [e|[|]]; simpl.
  - repeat split; auto.
  - rewrite recognize_body_eq.
    destruct (detected_faces E image_path) as [e|encs]; simpl.
    + repeat split; eauto. intros r [= <-]. congruence.
    + pose proof (faces_world E self tol encs [] w) as Hw.
      destruct (for_each encs _ [] w) as [[e|r0] w0]; simpl in *; subst w0.
      * repeat split; eauto. intros r [= <-]. congruence.
      * repeat split; auto.
  - repeat split; eauto. intros r [= <-]. congruence.
Qed.

(** X11: [recognize] returns at most one label per detected face. *)
Theorem recognize_at_most_one_per_face self image_path tol w r w' encs :
  recognize E self image_path tol w = (inr r, w') ->
  detected_faces E image_path = inr encs ->
  length r <= length encs.
Proof.
  intros Hrun Hd.
  destruct (recognize_inr E _ _ _ _ _ _ Hrun) as [->|(encs' & Hd' & ->)];
    [simpl; lia|].
  assert (encs' = encs) by congruence. subst.
  apply (found_after_length (model self) tol encs []).
Qed.

(** X12: a lower tolerance is stricter: when the iterations of all
    faces complete under the higher tolerance, every label returned
    under the lower one is returned under the higher one. *)
Theorem recognize_lower_is_stricter self image_path tol1 tol2 w encs :
  SFleb tol1 tol2 = true ->
  truth_value (model self) = inr true ->
  detected_faces E image_path = inr encs ->
  Forall (face_completes E (model self) tol2) encs ->
  exists r1 r2,
    recognize E self image_path tol1 w = (inr r1, w) /\
    recognize E self image_path tol2 w = (inr r2, w) /\
    forall name, In name r1 -> In name r2.
Proof.
  intros Hle Ht Hd Hall2.
  assert (Hall1 : Forall (face_completes E (model self) tol1) encs).
  { eapply List.Forall_impl; [|exact Hall2].
    intros x (d & Hk & Hp). exists d. split; [exact Hk|].
    intros Hd1. apply Hp. exact (SFleb_trans _ _ _ Hd1 Hle). }
  do 2 eexists. split; [|split].
  - apply recognize_completes; eauto.
  - apply recognize_completes; eauto.
  - intros name Hin.
    apply found_after_In in Hin as [[]|(x & Hx & Hlabel)].
    apply found_after_In. right. exists x. split; [exact Hx|].
    apply face_label_Some in Hlabel as (d & Hk & Hd1 & Hp).
    apply face_label_Some. exists d. repeat split; auto.
    exact (SFleb_trans _ _ _ Hd1 Hle).
Qed.

End RecognitionOutcome.

Lemma recognize_sound_witness :
  exists encs x d,
    detected_faces Studio.env "group.jpg" = inr encs /\ In x encs /\
    model_kneighbors Studio.env (PyKNN Studio.clf) x = inr d /\
    SFleb d default_tolerance = true /\
    model_predict Studio.env (PyKNN Studio.clf) x = inr "carol".
Proof.
  apply (recognize_sound Studio.env Studio.trained "group.jpg" default_tolerance
           Studio.fresh ["bob"; "alice"; "carol"] Studio.fresh "carol").
  - reflexivity.
  - simpl. auto.
Defined.

Lemma recognize_at_most_one_per_face_witness :
  length ["bob"; "alice"; "carol"] <= length [2; 4; 1; 3; 7; 2].
Proof.
  apply (recognize_at_most_one_per_face Studio.env Studio.trained "group.jpg"
           default_tolerance Studio.fresh ["bob"; "alice"; "carol"] Studio.fresh
           [2; 4; 1; 3; 7; 2]); reflexivity.
Defined.

Lemma recognize_lower_is_stricter_witness :
  exists r1 r2,
    recognize Studio.env Studio.trained "group.jpg" Studio.half Studio.fresh
      = (inr r1, Studio.fresh) /\
    recognize Studio.env Studio.trained "group.jpg" default_tolerance Studio.fresh
      = (inr r2, Studio.fresh) /\
    forall name, In name r1 -> In name r2.
Proof.
  apply (recognize_lower_is_stricter Studio.env Studio.trained "group.jpg"
           Studio.half default_tolerance Studio.fresh [2; 4; 1; 3; 7; 2]).
  - reflexivity.
  - reflexivity.
  - reflexivity.
  - repeat constructor;
      (eexists; split; [reflexivity|]; intros _; eexists; reflexivity).
Defined.

(** *** Batch results as a dictionary *)

Lemma keys_dict_set (k : string) (v : entry) (d : dict) (k' : string) :
  In k' (keys (dict_set k v d)) <-> k' = k \/ In k' (keys d).
Proof.
  induction d as [|[k0 v0] d IH]; simpl.
  - split; [intros [H|[]]; auto|intros [H|[]]; auto].
  - destruct (String.eqb k k0) eqn:Heq; simpl.
    + apply String.eqb_eq in Heq. subst k0. split.
      * intros [H|H]; auto.
      * intros [H|[H|H]]; auto.
    + rewrite IH. split.
      * intros [H|[H|H]]; auto.
      * intros [H|[H|H]]; auto.
Qed.

Lemma keys_dict_set_NoDup (k : string) (v : entry) (d : dict) :
  List.NoDup (keys d) -> List.NoDup (keys (dict_set k v d)).
Proof.
  induction d as [|[k0 v0] d IH]; simpl; intros Hnd.
  - constructor; [intros []|constructor].
  - inversion Hnd as [|? ? Hk0 Hd]; subst.
    destruct (String.eqb k k0) eqn:Heq; simpl.
    + apply String.eqb_eq in Heq. subst k0. constructor; assumption.
    + constructor; [|apply IH, Hd].
      intros Hin. apply keys_dict_set in Hin as [->|Hin]; [|contradiction].
      rewrite String.eqb_refl in Heq. discriminate.
Qed.

Lemma dict_set_values (P : entry -> Prop) (k : string) (v : entry) (d : dict) :
  P v -> Forall (fun kv => P (snd kv)) d ->
  Forall (fun kv => P (snd kv)) (dict_set k v d).
Proof.
  intros Hv Hd. induction Hd as [|[k0 v0] d H0 Hd IH]; simpl.
  - repeat constructor. exact Hv.
  - destruct (String.eqb k k0); constructor; auto.
Qed.

Section BatchOutcome.
Variable E : Env.

Local Abbreviation emb := (embedding E).

Implicit Types (w : World emb) (engine : Engine emb).

(** [recognize] leaves the model files, their log and [stdout] alone. *)
Lemma recognize_keeps engine image_path tol w :
  files (snd (recognize E engine image_path tol w)) = files w /\
  fs_log (snd (recognize E engine image_path tol w)) = fs_log w /\
  stdout (snd (recognize E engine image_path tol w)) = stdout w.
Proof.
  unfold recognize. run.
  destruct (truth_value (model engine)) as [e|[|]]; simpl; auto.
  rewrite recognize_body_eq.
  destruct (detected_faces E image_path) as [e|encs]; simpl; auto.
  pose proof (faces_world E engine tol encs [] w) as Hw.
  destruct (for_each encs _ [] w) as [[e|r0] w0]; simpl in *; subst w0; auto.
Qed.

Lemma process_file_total engine directory_path filename results w :
  exists results' w',
    process_file E engine directory_path filename results w = (inr results', w') /\
    (files w' = files w /\ fs_log w' = fs_log w /\ stdout w' = stdout w) /\
    (if is_image (join directory_path filename)
     then exists v, results' = dict_set filename v results
     else results' = results).
Proof.
  unfold process_file.
  destruct (is_image (join directory_path filename)); simpl.
  - run. pose proof (recognize_keeps engine (join directory_path filename)
                       default_tolerance w) as Hkeep.
    destruct (recognize E engine _ default_tolerance w) as [[e|people] w1];
      simpl in *; do 2 eexists; (split; [reflexivity|]); simpl; eauto.
  - exists results, w. auto.
Qed.

Lemma process_files_total engine directory_path filenames results w :
  exists results' w',
    for_each filenames (process_file E engine directory_path) results w
      = (inr results', w') /\
    (files w' = files w /\ fs_log w' = fs_log w /\ stdout w' = stdout w) /\
    (List.NoDup (keys results) -> List.NoDup (keys results')) /\
    (forall k, In k (keys results') <->
               In k (keys results) \/
               (In k filenames /\ is_image (join directory_path k) = true)).
Proof.
  revert results w. induction filenames as [|f filenames IH]; intros results w.
  - exists results, w. simpl. repeat split; auto. intros [H|[[] _]]. exact H.
  - destruct (process_file_total engine directory_path f results w)
      as (r1 & w1 & Hstep & (Hf1 & Hl1 & Ho1) & Hr1).
    destruct (IH r1 w1) as (r2 & w2 & Hrest & (Hf2 & Hl2 & Ho2) & Hnd & Hkeys).
    exists r2, w2. rewrite for_each_cons, Hstep.
    split; [exact Hrest|]. split; [repeat split; congruence|].
    destruct (is_image (join directory_path f)) eqn:Himg.
    + destruct Hr1 as (v & ->). split.
      * intros H. apply Hnd, keys_dict_set_NoDup, H.
      * intros k. rewrite Hkeys, keys_dict_set. simpl. split.
        -- intros [[->|H]|[H1 H2]]; auto.
        -- intros [H|[[->|H1] H2]]; auto.
    + subst r1. split; [exact Hnd|].
      intros k. rewrite Hkeys. simpl. split.
      * intros [H|[H1 H2]]; auto.
      * intros [H|[[->|H1] H2]]; auto. congruence.
Qed.

(** X13: [process_directory] raises exactly the exception of listing
    the directory, before anything is printed.  When the directory can
    be listed it never raises, whatever the engine and the images: it
    returns a dictionary whose keys are the listed names with an image
    extension, each once, and it touches neither the model files nor
    [stdout]. *)
Theorem process_directory_total engine directory_path json_output w :
  match listdir E directory_path with
  | inl e => process_directory E engine directory_path json_output w = (inl e, w)
  | inr filenames =>
      exists results w',
        process_directory E engine directory_path json_output w =
          (inr (if json_output then JsonText results else Native results), w') /\
        files w' = files w /\ fs_log w' = fs_log w /\ stdout w' = stdout w /\
        List.NoDup (keys results) /\
        forall k, In k (keys results) <->
                  In k filenames /\ is_image (join directory_path k) = true
  end.
Proof.
  unfold process_directory, bind, call.
  destruct (listdir E directory_path) as [e|filenames]; [reflexivity|].
  destruct (process_files_total engine directory_path filenames [] w)
    as (results & w' & Hrun & (Hf & Hl & Ho) & Hnd & Hkeys).
  exists results, w'. rewrite Hrun.
  split; [destruct json_output; reflexivity|].
  repeat split; auto.
  - apply Hnd. constructor.
  - apply Hkeys in H as [[]|[H _]]. exact H.
  - apply Hkeys in H as [[]|[_ H]]. exact H.
  - intros [H1 H2]. apply Hkeys. auto.
Qed.

Lemma process_files_untrained engine directory_path filenames results w :
  model engine = PyNone ->
  Forall (fun kv => snd kv = Labels []) results ->
  exists results' w',
    for_each filenames (process_file E engine directory_path) results w
      = (inr results', w') /\
    Forall (fun kv => snd kv = Labels []) results' /\
    stderr w' = stderr w ++
      repeat NoTrainedModel
        (length (List.filter (fun f => is_image (join directory_path f)) filenames)).
Proof.
  intros Hm. revert results w.
  induction filenames as [|f filenames IH]; intros results w Hres.
  - exists results, w. simpl. rewrite app_nil_r. auto.
  - rewrite for_each_cons. unfold process_file at 1. simpl.
    destruct (is_image (join directory_path f)); simpl.
    + unfold recognize. run. rewrite Hm. simpl.
      edestruct IH as (r2 & w2 & -> & Hall & Herr);
        [apply (dict_set_values (fun v => v = Labels [])); [reflexivity|exact Hres]|].
      exists r2, w2. split; [reflexivity|]. split; [exact Hall|].
      rewrite Herr. simpl. rewrite <- app_assoc. reflexivity.
    + destruct (IH results w Hres) as (r2 & w2 & Hrun & Hall & Herr).
      exists r2, w2. auto.
Qed.

(** X14: with no classifier loaded, a batch does not fail: every image
    file of the directory is reported with the empty list, and the
    missing model shows only as one line on [stderr] per image file. *)
Theorem process_directory_untrained engine directory_path filenames json_output w :
  model engine = PyNone ->
  listdir E directory_path = inr filenames ->
  exists results w',
    process_directory E engine directory_path json_output w =
      (inr (if json_output then JsonText results else Native results), w') /\
    Forall (fun kv => snd kv = Labels []) results /\
    stderr w' = stderr w ++
      repeat NoTrainedModel
        (length (List.filter (fun f => is_image (join directory_path f)) filenames)).
Proof.
  intros Hm Hls.
  destruct (process_files_untrained engine directory_path filenames [] w Hm)
    as (results & w' & Hrun & Hall & Herr); [constructor|].
  exists results, w'. unfold process_directory.
  unfold bind at 1, call at 1. rewrite Hls. unfold bind. rewrite Hrun.
  split; [destruct json_output; reflexivity|]. auto.
Qed.

End BatchOutcome.

Lemma process_directory_untrained_witness :
  exists results world,
    process_directory Studio.env Studio.untrained "photos" true Studio.fresh =
      (inr (JsonText results), world) /\
    Forall (fun kv => snd kv = Labels []) results /\
    stderr world = [NoTrainedModel; NoTrainedModel; NoTrainedModel].
Proof.
  apply (process_directory_untrained Studio.env Studio.untrained "photos"
           ["a.jpg"; "bad.jpg"; "readme.md"; "b.png"] true Studio.fresh);
    reflexivity.
Defined.

(** *** The command line *)

Section CommandLine.
Variable E : Env.

Local Abbreviation emb := (embedding E).

Implicit Types (w : World emb) (args : Args).

Lemma given_Some (o : option string) (s : string) :
  given o = Some s -> given (Some s) = Some s.
Proof.
  destruct o as [t|]; simpl; [|discriminate].
  destruct (String.eqb t "") eqn:Heq; [discriminate|].
  intros [= <-]. rewrite Heq. reflexivity.
Qed.

Lemma init_total path w :
  exists eng w',
    init E path w = (inr eng, w') /\
    model_path eng = path /\
    files w' = files w /\ stdout w' = stdout w /\
    match files w !! path with
    | Some (Pickled v) => model eng = v /\ stderr w' = stderr w
    | Some (Corrupt e) =>
        model eng = PyNone /\ stderr w' = stderr w ++ [ErrorLoadingModel e]
    | None => model eng = PyNone /\ stderr w' = stderr w
    end.
Proof.
  unfold init.
  destruct (load_model_total E (mkEngine path PyNone) w)
    as (ok & m & w' & Hrun & Hfiles & Hout & _ & Hm).
  simpl in *. unfold bind. rewrite Hrun. simpl.
  exists (mkEngine path m), w'. repeat split; auto.
Qed.

(** X15: the flags are tried in the order [--train], [--recognize],
    [--process-dir], a flag given as the empty string counting as
    absent: the run is the run of the first usable flag alone, and the
    tolerance matters to it only under [--recognize]. *)
Theorem main_first_flag_wins args w :
  match given (arg_train args), given (arg_recognize args),
        given (arg_process_dir args) with
  | Some d, _, _ =>
      main E args w =
      main E (mkArgs (Some d) None None (arg_model args) default_tolerance) w
  | None, Some f, _ =>
      main E args w =
      main E (mkArgs None (Some f) None (arg_model args) (arg_tolerance args)) w
  | None, None, Some d =>
      main E args w =
      main E (mkArgs None None (Some d) (arg_model args) default_tolerance) w
  | None, None, None =>
      main E args w =
      main E (mkArgs None None None (arg_model args) default_tolerance) w
  end.
Proof.
  unfold main.
  destruct (given (arg_train args)) as [d|] eqn:Ht.
  - cbn [arg_train arg_model]. rewrite (given_Some _ _ Ht). reflexivity.
  - destruct (given (arg_recognize args)) as [f|] eqn:Hr.
    + cbn [arg_train arg_recognize arg_model arg_tolerance].
      rewrite (given_Some _ _ Hr). reflexivity.
    + destruct (given (arg_process_dir args)) as [d|] eqn:Hp.
      * cbn [arg_train arg_recognize arg_process_dir arg_model].
        rewrite (given_Some _ _ Hp). reflexivity.
      * reflexivity.
Qed.

(** X16: a directory that cannot be listed is not handled: under
    [--train] as under [--process-dir] the exception of [os.listdir]
    escapes from the script, after the model was loaded and before
    anything is printed on [stdout] or written. *)
Theorem main_directory_error_escapes args w d e :
  listdir E d = inl e ->
  given (arg_train args) = Some d \/
  (given (arg_train args) = None /\ given (arg_recognize args) = None /\
   given (arg_process_dir args) = Some d) ->
  exists w',
    main E args w = (inl e, w') /\
    stdout w' = stdout w /\ files w' = files w.
Proof.
  intros Hls Hflag.
  destruct (init_total (arg_model args) w) as (eng & w1 & Hinit & _ & Hf & Ho & _).
  unfold main. unfold bind at 1. rewrite Hinit.
  destruct Hflag as [Ht|(Ht & Hr & Hp)].
  - rewrite Ht. unfold train, collect, bind, call. rewrite Hls.
    exists w1. auto.
  - rewrite Ht, Hr, Hp. unfold process_directory, bind, call. rewrite Hls.
    exists w1. auto.
Qed.

(** X17: [--recognize] on a model file that is missing or does not
    unpickle ends normally: the script prints the empty list on
    [stdout] and reports the missing model last on [stderr]. *)
Theorem main_recognize_untrained args w image_path :
  given (arg_train args) = None ->
  given (arg_recognize args) = Some image_path ->
  files w !! arg_model args = None \/
  (exists e, files w !! arg_model args = Some (Corrupt e)) ->
  exists w',
    main E args w = (inr tt, w') /\
    stdout w' = stdout w ++ [PrintPeople []] /\
    files w' = files w /\
    exists logged, stderr w' = stderr w ++ logged ++ [NoTrainedModel].
Proof.
  intros Ht Hr Hfile.
  destruct (init_total (arg_model args) w) as (eng & w1 & Hinit & _ & Hf & Ho & Hm).
  assert (Hnone : model eng = PyNone /\
                  exists logged, stderr w1 = stderr w ++ logged).
  { destruct Hfile as [Hnone|(e & Hc)].
    - rewrite Hnone in Hm. destruct Hm as [-> ->]. split; [reflexivity|].
      exists []. rewrite app_nil_r. reflexivity.
    - rewrite Hc in Hm. destruct Hm as [-> ->]. eauto. }
  destruct Hnone as (Hmodel & logged & Herr).
  unfold main. unfold bind at 1. rewrite Hinit, Ht, Hr.
  unfold recognize. run. rewrite Hmodel. simpl.
  eexists. split; [reflexivity|]. simpl. rewrite Ho, Hf, Herr.
  repeat split. exists logged. rewrite <- app_assoc. reflexivity.
Qed.

(** X18: without a usable flag the script still loads the model file
    and then only prints the help text. *)
Theorem main_without_flags args w :
  given (arg_train args) = None ->
  given (arg_recognize args) = None ->
  given (arg_process_dir args) = None ->
  exists eng w1,
    init E (arg_model args) w = (inr eng, w1) /\
    main E args w =
      (inr tt, mkWorld (files w) (fs_log w1) (stdout w ++ [PrintHelp]) (stderr w1)).
Proof.
  intros Ht Hr Hp.
  destruct (init_total (arg_model args) w) as (eng & w1 & Hinit & _ & Hf & Ho & _).
  exists eng, w1. split; [exact Hinit|].
  unfold main. unfold bind at 1. rewrite Hinit, Ht, Hr, Hp.
  unfold print. rewrite Hf, Ho. reflexivity.
Qed.

End CommandLine.

Lemma main_directory_error_escapes_witness :
  exists world,
    main Studio.env (mkArgs None (Some "") (Some "nowhere") "face_model.pkl"
                       default_tolerance) Studio.with_model
      = (inl (Exception "FileNotFoundError"), world) /\
    stdout world = [].
Proof.
  destruct (main_directory_error_escapes Studio.env
              (mkArgs None (Some "") (Some "nowhere") "face_model.pkl"
                 default_tolerance)
              Studio.with_model "nowhere" (Exception "FileNotFoundError") eq_refl)
    as (world & Hrun & Hout & _).
  - right. repeat split.
  - exists world. split; [exact Hrun|exact Hout].
Defined.

Lemma main_recognize_untrained_witness :
  exists world,
    main Studio.env (mkArgs None (Some "edge.jpg") None "face_model.pkl"
                       default_tolerance) Studio.with_garbage
      = (inr tt, world) /\
    stdout world = [PrintPeople []].
Proof.
  destruct (main_recognize_untrained Studio.env
              (mkArgs None (Some "edge.jpg") None "face_model.pkl" default_tolerance)
              Studio.with_garbage "edge.jpg" eq_refl eq_refl)
    as (world & Hrun & Hout & _).
  - right. exists (Exception "UnpicklingError"). reflexivity.
  - exists world. split; [exact Hrun|exact Hout].
Defined.

Lemma main_without_flags_witness :
  exists world,
    main Studio.env (mkArgs (Some "") None (Some "") "face_model.pkl"
                       default_tolerance) Studio.fresh
      = (inr tt, world) /\
    stdout world = [PrintHelp].
Proof.
  destruct (main_without_flags Studio.env
              (mkArgs (Some "") None (Some "") "face_model.pkl" default_tolerance)
              Studio.fresh eq_refl eq_refl eq_refl)
    as (eng & world & _ & Hrun).
  eexists. split; [exact Hrun|reflexivity].
Defined.

Lemma load_model_reports_witness :
  exists eng world,
    load_model Studio.env Studio.untrained Studio.with_model
      = (inr (true, eng), world) /\
    model eng = PyKNN Studio.clf.
Proof.
  destruct (load_model_reports Studio.env Studio.untrained Studio.with_model)
    as (ok & eng & world & Hrun & Hok & _ & Hmodel & _).
  assert (Htrue : ok = true).
  { apply Hok. exists (PyKNN Studio.clf). reflexivity. }
  subst ok. exists eng, world. split; [exact Hrun|].
  apply Hmodel. reflexivity.
Defined.

Lemma train_image_outcome_witness :
  (exists world,
     train_image Legacy.env "zoe" "old/zoe" Legacy.zoe ([], []) Studio.fresh
       = (inr ([1], ["zoe"]), world) /\
     stdout world = [] /\
     stderr world = [ErrorProcessing (join "old/zoe" Legacy.zoe)
                       (Exception "UnicodeEncodeError")]) /\
  (exists world,
     train_image Lockers.env "alice" "open/alice" "duo.jpg" ([], []) Studio.fresh
       = (inr ([1], ["alice"]), world) /\
     stdout world = [ProcessedFace "open/alice/duo.jpg" "alice"]).
Proof.
  split.
  - destruct (train_image_outcome Legacy.env "zoe" "old/zoe" Legacy.zoe [] []
                Studio.fresh) as (world & Hrun & _ & _ & _ & Hout & _).
    exists world. split; [exact Hrun|].
    apply (Hout 1). reflexivity.
  - destruct (train_image_outcome Lockers.env "alice" "open/alice" "duo.jpg" [] []
                Studio.fresh) as (world & Hrun & _ & _ & _ & Hout & _).
    exists world. split; [exact Hrun|].
    apply (Hout 1). reflexivity.
Defined.

Lemma recognize_frame_witness :
  snd (recognize Studio.env Studio.trained "group.jpg" default_tolerance
         Studio.with_model) = Studio.with_model.
Proof.
  apply (recognize_frame Studio.env Studio.trained "group.jpg" default_tolerance
           Studio.with_model) with (r := ["bob"; "alice"; "carol"]).
  - reflexivity.
  - discriminate.
Defined.

Lemma process_directory_total_witness :
  exists results world,
    process_directory Studio.env Studio.odd "photos" false Studio.fresh
      = (inr (Native results), world) /\
    In "bad.jpg" (keys results) /\ ~ In "readme.md" (keys results).
Proof.
  destruct (process_directory_total Studio.env Studio.odd "photos" false Studio.fresh)
    as (results & world & Hrun & _ & _ & _ & _ & Hkeys).
  exists results, world. split; [exact Hrun|]. split.
  - apply Hkeys. split; [simpl; auto|reflexivity].
  - intros Hin. apply Hkeys in Hin as [_ Himg]. discriminate Himg.
Defined.
